(** * dfreds-convenient-effects: the [Settings] class

    A shallow embedding of [Settings] (favorite effect names and expanded
    folders, both persisted as [;]-joined strings in the host's settings
    store) together with the JavaScript string and array primitives it
    calls, and the properties of the settings store proved on it; then the
    template helpers of [HandlebarHelpers] and their properties. *)

From Stdlib Require Import List NArith Ascii String Bool Lia.
From stdpp Require Import gmap strings list fin_maps.
Import ListNotations.

Local Open Scope N_scope.
Local Open Scope list_scope.

(** ** JavaScript strings

    A JavaScript string is a finite sequence of UTF-16 code units. *)

Module JS.

Definition code_unit : Type := N.
Definition jsstring : Type := list code_unit.

(** A string literal of the source, all of whose characters are ASCII. *)
Definition lit (s : string) : jsstring :=
  List.map N_of_ascii (list_ascii_of_string s).

(** [a === b] on two strings: same sequence of code units. *)
Definition strict_eq (a b : jsstring) : bool := bool_decide (a = b).

(** [a !== b]. *)
Definition strict_ne (a b : jsstring) : bool := negb (strict_eq a b).

(** ECMAScript WhiteSpace and LineTerminator code points, the characters
    [String.prototype.trim] strips. All of them are single code units. *)
Definition is_white_space (c : code_unit) : bool :=
  (c =? 0x0009) || (c =? 0x000A) || (c =? 0x000B) || (c =? 0x000C) ||
  (c =? 0x000D) || (c =? 0x0020) || (c =? 0x00A0) || (c =? 0x1680) ||
  ((0x2000 <=? c) && (c <=? 0x200A)) ||
  (c =? 0x2028) || (c =? 0x2029) || (c =? 0x202F) || (c =? 0x205F) ||
  (c =? 0x3000) || (c =? 0xFEFF).

Fixpoint trim_start (s : jsstring) : jsstring :=
  match s with
  | [] => []
  | c :: s' => if is_white_space c then trim_start s' else s
  end.

Definition trim_end (s : jsstring) : jsstring :=
  rev (trim_start (rev s)).

(** [s.trim()]. *)
Definition trim (s : jsstring) : jsstring := trim_end (trim_start s).

(** ToBoolean of a string: every string but the empty one is truthy. *)
Definition truthy (s : jsstring) : bool :=
  match s with [] => false | _ :: _ => true end.

(** [s.split(sep)] for a separator of one code unit and no limit: the
    pieces of [s] between the occurrences of [sep]; never an empty array,
    [''.split(';')] is [['']]. *)
Fixpoint split (sep : code_unit) (s : jsstring) : list jsstring :=
  match s with
  | [] => [[]]
  | c :: s' =>
      if c =? sep then [] :: split sep s'
      else match split sep s' with
           | [] => [[c]]
           | piece :: pieces => (c :: piece) :: pieces
           end
  end.

(** [arr.join(sep)] on an array of strings. *)
Fixpoint join (sep : jsstring) (arr : list jsstring) : jsstring :=
  match arr with
  | [] => []
  | [x] => x
  | x :: rest => x ++ sep ++ join sep rest
  end.

(** [arr.filter(f)], with the callback's result already coerced to a
    boolean. *)
Definition filter (f : jsstring -> bool) (arr : list jsstring) : list jsstring :=
  List.filter f arr.

(** [arr.push(x)]: the array with [x] appended. *)
Definition push (arr : list jsstring) (x : jsstring) : list jsstring :=
  arr ++ [x].

(** [arr.includes(x)] on an array of strings. *)
Definition includes (arr : list jsstring) (x : jsstring) : bool :=
  existsb (strict_eq x) arr.

(** A [Set] of strings keeps its elements in insertion order; [add] of an
    element already present changes nothing. *)
Definition set_add (s : list jsstring) (x : jsstring) : list jsstring :=
  if includes s x then s else s ++ [x].

(** [new Set(arr)]: the elements of [arr] added one by one, from the left. *)
Definition new_Set (arr : list jsstring) : list jsstring :=
  fold_left set_add arr [].

(** [[...new Set(arr)]]: iterating a set yields its elements in insertion
    order. *)
Definition spread_Set (arr : list jsstring) : list jsstring := new_Set arr.

End JS.

Import JS.

(** The delimiter [';']. *)
Definition SEMI : code_unit := 59.

(** ** The host's settings store ([game.settings]) *)

(** The values the module keeps in the store: booleans and strings. *)
Inductive value : Type :=
| VBool (b : bool)
| VString (s : jsstring).

Inductive setting_scope : Type := World | Client.

Inductive setting_type : Type := TBoolean | TString.

(** The descriptor object passed to [game.settings.register]. *)
Record SettingConfig : Type := mkSettingConfig {
  cfg_name : string;
  cfg_hint : option string;
  cfg_scope : setting_scope;
  cfg_config : bool;
  cfg_default : value;
  cfg_choices : list (string * string);
  cfg_type : setting_type;
  cfg_reload_on_change : bool
}.

(** Modelled from the spec: the host application's settings backend
    ([game.settings]), which is not part of this repository.  It offers
    [register(namespace, key, descriptor)], [get(namespace, key)], which
    returns the persisted value or else the registered default, and
    [set(namespace, key, value)], which overwrites the persisted value.
    A key that was never registered has neither, and [get] and [set] on it
    raise an error. *)
Record ClientSettings : Type := mkClientSettings {
  settings : gmap (string * string) SettingConfig;
  storage : gmap (string * string) value
}.

(** The store of a host that has registered and persisted nothing. *)
Definition no_settings : ClientSettings :=
  {| settings := ∅; storage := ∅ |}.

Inductive exn : Type :=
| NotRegistered (namespace key : string)
| TypeError.

Inductive result (A : Type) : Type :=
| Ok (a : A) (g : ClientSettings)
| Throw (e : exn).
Arguments Ok {A} a g.
Arguments Throw {A} e.

(** Code that reads and writes [game.settings] and may throw. *)
Definition M (A : Type) : Type := ClientSettings -> result A.

Definition ret {A : Type} (a : A) : M A := fun g => Ok a g.

Definition throw {A : Type} (e : exn) : M A := fun _ => Throw e.

Definition bind {A B : Type} (m : M A) (k : A -> M B) : M B :=
  fun g => match m g with
           | Ok a g' => k a g'
           | Throw e => Throw e
           end.

Notation "x <- c1 ;; c2" := (bind c1 (fun x => c2))
  (at level 100, c1 at next level, right associativity).
Notation "c1 ;; c2" := (bind c1 (fun _ => c2))
  (at level 100, right associativity).

(** Modelled from the spec: what the host's [get] returns for a setting,
    the persisted value, or the registered default when nothing was
    persisted; [None] when the setting is not registered. *)
Definition current_value (namespace key : string) (g : ClientSettings)
  : option value :=
  match settings g !! (namespace, key) with
  | Some cfg => Some (default (cfg_default cfg) (storage g !! (namespace, key)))
  | None => None
  end.

(** Modelled from the spec: the host's [register], which records the
    descriptor, default included, and persists nothing. *)
Definition register (namespace key : string) (cfg : SettingConfig) : M unit :=
  fun g => Ok tt {| settings := <[(namespace, key) := cfg]> (settings g);
                    storage := storage g |}.

(** Modelled from the spec: the host's [get], which leaves the store as
    it is. *)
Definition get (namespace key : string) : M value :=
  fun g => match current_value namespace key g with
           | Some v => Ok v g
           | None => Throw (NotRegistered namespace key)
           end.

(** Modelled from the spec: the host's [set], which overwrites the
    persisted value of a registered setting. *)
Definition set (namespace key : string) (v : value) : M unit :=
  fun g => match settings g !! (namespace, key) with
           | Some _ => Ok tt {| settings := settings g;
                                storage := <[(namespace, key) := v]> (storage g) |}
           | None => Throw (NotRegistered namespace key)
           end.

(** A method of [String.prototype] called on a value throws a [TypeError]
    unless the value is a string. *)
Definition as_string (v : value) : M jsstring :=
  match v with
  | VString s => ret s
  | VBool _ => throw TypeError
  end.

(** ** The [Settings] class *)

Module Settings.

Definition PACKAGE_NAME : string := "dfreds-convenient-effects".

Definition ALLOW_FOR_PLAYERS : string := "allowForPlayers".
Definition CHAT_MESSAGE_TYPE : string := "chatMessageType".
Definition INTEGRATE_WITH_ATL : string := "integrateWithAtl".
Definition INTEGRATE_WITH_TOKEN_MAGIC : string := "integrateWithTokenMagic".
Definition FAVORITE_EFFECT_NAMES : string := "favoriteEffectNames".
Definition EXPANDED_FOLDERS : string := "expandedFolders".

Definition registerSettings : M unit :=
  register PACKAGE_NAME ALLOW_FOR_PLAYERS
    {| cfg_name := "Players Can See";
       cfg_hint := Some "If enabled, players can see the effects and toggle them on or off. Requires a Foundry reload.";
       cfg_scope := World;
       cfg_config := true;
       cfg_default := VBool false;
       cfg_choices := [];
       cfg_type := TBoolean;
       cfg_reload_on_change := true |} ;;
  register PACKAGE_NAME CHAT_MESSAGE_TYPE
    {| cfg_name := "Chat Message Type";
       cfg_hint := Some "This is how chat messages will be displayed when effects are applied, remove, or expire.";
       cfg_scope := World;
       cfg_config := true;
       cfg_default := VString (lit "private");
       cfg_choices := [("none", "None"); ("gmOnly", "GM Only");
                       ("everyone", "Everyone")];
       cfg_type := TString;
       cfg_reload_on_change := false |} ;;
  register PACKAGE_NAME INTEGRATE_WITH_ATL
    {| cfg_name := "Integrate with ATL";
       cfg_hint := Some "If enabled, certain effects will also change light emitted from tokens via Active Token Lighting.";
       cfg_scope := World;
       cfg_config := true;
       cfg_default := VBool true;
       cfg_choices := [];
       cfg_type := TBoolean;
       cfg_reload_on_change := false |} ;;
  register PACKAGE_NAME INTEGRATE_WITH_TOKEN_MAGIC
    {| cfg_name := "Integrate with Token Magic";
       cfg_hint := Some "If enabled, certain effects will also apply a token magic filter to tokens via Token Magic.";
       cfg_scope := World;
       cfg_config := true;
       cfg_default := VBool true;
       cfg_choices := [];
       cfg_type := TBoolean;
       cfg_reload_on_change := false |} ;;
  register PACKAGE_NAME FAVORITE_EFFECT_NAMES
    {| cfg_name := "Favorite Effect Names";
       cfg_hint := None;
       cfg_scope := Client;
       cfg_config := false;
       cfg_default := VString (lit "");
       cfg_choices := [];
       cfg_type := TString;
       cfg_reload_on_change := false |} ;;
  register PACKAGE_NAME EXPANDED_FOLDERS
    {| cfg_name := "Expanded Folders";
       cfg_hint := None;
       cfg_scope := Client;
       cfg_config := false;
       cfg_default := VString (lit "Favorites");
       cfg_choices := [];
       cfg_type := TString;
       cfg_reload_on_change := false |}.

Definition allowForPlayers : M value :=
  get PACKAGE_NAME ALLOW_FOR_PLAYERS.

Definition chatMessageType : M value :=
  get PACKAGE_NAME CHAT_MESSAGE_TYPE.

Definition integrateWithAtl : M value :=
  get PACKAGE_NAME INTEGRATE_WITH_ATL.

Definition integrateWithTokenMagic : M value :=
  get PACKAGE_NAME INTEGRATE_WITH_TOKEN_MAGIC.

Definition favoriteEffectNames : M (list jsstring) :=
  v <- get PACKAGE_NAME FAVORITE_EFFECT_NAMES ;;
  s <- as_string v ;;
  ret (filter (fun name => truthy (trim name)) (split SEMI s)).

Definition addFavoriteEffect (name : jsstring) : M unit :=
  favoriteEffectsArray <- favoriteEffectNames ;;
  let favoriteEffectsArray := push favoriteEffectsArray name in
  let favoriteEffectsArray := spread_Set favoriteEffectsArray in
  set PACKAGE_NAME FAVORITE_EFFECT_NAMES
    (VString (join (lit ";") favoriteEffectsArray)).

Definition removeFavoriteEffect (name : jsstring) : M unit :=
  names <- favoriteEffectNames ;;
  let favoriteEffectsArray :=
    filter (fun favoriteEffect => strict_ne favoriteEffect name) names in
  set PACKAGE_NAME FAVORITE_EFFECT_NAMES
    (VString (join (lit ";") favoriteEffectsArray)).

Definition isFavoritedEffect (name : jsstring) : M bool :=
  names <- favoriteEffectNames ;;
  ret (includes names name).

Definition expandedFolders : M (list jsstring) :=
  v <- get PACKAGE_NAME EXPANDED_FOLDERS ;;
  s <- as_string v ;;
  ret (filter (fun name => truthy (trim name)) (split SEMI s)).

Definition addExpandedFolder (name : jsstring) : M unit :=
  expandedFolderArray <- expandedFolders ;;
  let expandedFolderArray := push expandedFolderArray name in
  let expandedFolderArray := spread_Set expandedFolderArray in
  set PACKAGE_NAME EXPANDED_FOLDERS
    (VString (join (lit ";") expandedFolderArray)).

Definition removeExpandedFolder (name : jsstring) : M unit :=
  names <- expandedFolders ;;
  let expandedFolderArray :=
    filter (fun expandedFolder => strict_ne expandedFolder name) names in
  set PACKAGE_NAME EXPANDED_FOLDERS
    (VString (join (lit ";") expandedFolderArray)).

Definition clearExpandedFolders : M unit :=
  set PACKAGE_NAME EXPANDED_FOLDERS (VString (lit "")).

Definition isFolderExpanded (name : jsstring) : M bool :=
  names <- expandedFolders ;;
  ret (includes names name).

End Settings.

Import Settings.

(** The store right after the module registered its settings on a host
    that had persisted nothing. *)
Definition fresh : ClientSettings :=
  match registerSettings no_settings with
  | Ok _ g => g
  | Throw _ => no_settings
  end.

(** ** Pure views of the store

    The member sequence a raw value parses to, and the raw values [add]
    and [remove] write, as functions of the raw value they start from. *)

Definition is_blank (s : jsstring) : bool := forallb is_white_space s.

Definition members (raw : jsstring) : list jsstring :=
  filter (fun name => truthy (trim name)) (split SEMI raw).

Definition added (name raw : jsstring) : jsstring :=
  join (lit ";") (spread_Set (push (members raw) name)).

Definition removed (name raw : jsstring) : jsstring :=
  join (lit ";") (filter (fun m => strict_ne m name) (members raw)).

(** The store with [raw] persisted under [key]. *)
Definition persist (key : string) (raw : jsstring) (g : ClientSettings)
  : ClientSettings :=
  {| settings := settings g;
     storage := <[(PACKAGE_NAME, key) := VString raw]> (storage g) |}.

(** A member as [read] can return it: no delimiter inside, and not blank. *)
Definition clean (m : jsstring) : Prop := ~ In SEMI m /\ is_blank m = false.

(** The store of a host on which the module registered its settings and
    that then persisted [raw] as the favorites and [raw'] as the expanded
    folders. *)
Definition stored (raw raw' : jsstring) : ClientSettings :=
  persist EXPANDED_FOLDERS raw' (persist FAVORITE_EFFECT_NAMES raw fresh).

(** ** The properties the claims speak of *)

(** Calling [add(name)] twice in a row on the collection stored under
    [key]: both calls complete, the members read afterwards are, as a set,
    those read after the first call, and for a name without [;] the second
    call leaves the raw value, and the whole store, as the first left it. *)
Definition twice_as_once (key : string) (add : jsstring -> M unit)
    (read : M (list jsstring)) (g : ClientSettings) (name : jsstring) : Prop :=
  exists (g1 g2 : ClientSettings) (m1 m2 : list jsstring),
    add name g = Ok tt g1
    /\ add name g1 = Ok tt g2
    /\ read g1 = Ok m1 g1
    /\ read g2 = Ok m2 g2
    /\ (forall x : jsstring, In x m2 <-> In x m1)
    /\ (~ In SEMI name ->
        current_value PACKAGE_NAME key g2 = current_value PACKAGE_NAME key g1
        /\ g2 = g1).

(** The raw value persisted under [key] is the [;]-join of the members
    [read] returns. *)
Definition round_trips (key : string) (read : M (list jsstring))
    (g : ClientSettings) : Prop :=
  exists (raw : jsstring) (ms : list jsstring),
    current_value PACKAGE_NAME key g = Some (VString raw)
    /\ read g = Ok ms g
    /\ raw = join (lit ";") ms.

(** ** The two collections, side by side

    [Settings] has the same four methods twice, once per collection. *)
Record Collection : Type := mkCollection {
  c_key : string;
  c_read : M (list jsstring);
  c_add : jsstring -> M unit;
  c_remove : jsstring -> M unit;
  c_contains : jsstring -> M bool
}.

Definition favorites : Collection :=
  {| c_key := FAVORITE_EFFECT_NAMES;
     c_read := favoriteEffectNames;
     c_add := addFavoriteEffect;
     c_remove := removeFavoriteEffect;
     c_contains := isFavoritedEffect |}.

Definition folders : Collection :=
  {| c_key := EXPANDED_FOLDERS;
     c_read := expandedFolders;
     c_add := addExpandedFolder;
     c_remove := removeExpandedFolder;
     c_contains := isFolderExpanded |}.

Definition collections : list Collection := [favorites; folders].

(** The raw value of collection [c] in the store [g] is the string [raw]. *)
Definition holds (c : Collection) (g : ClientSettings) (raw : jsstring) : Prop :=
  current_value PACKAGE_NAME (c_key c) g = Some (VString raw).

(** [for (const name of names) f(name)]. *)
Fixpoint for_each (f : jsstring -> M unit) (names : list jsstring) : M unit :=
  match names with
  | [] => ret tt
  | name :: rest => f name ;; for_each f rest
  end.

(** Running [m] on [g] completes and changes nothing but what is persisted
    under [key]: the registered descriptors and the value of every other
    setting are as before. *)
Definition only_touches (key : string) (m : M unit) (g : ClientSettings)
  : Prop :=
  exists g' : ClientSettings,
    m g = Ok tt g'
    /\ settings g' = settings g
    /\ forall namespace k : string,
         (namespace, k) <> (PACKAGE_NAME, key) ->
         current_value namespace k g' = current_value namespace k g.

(** ** The template helpers ([HandlebarHelpers]) *)

(** [s.startsWith(search)]. *)
Fixpoint startsWith (s search : jsstring) {struct search} : bool :=
  match search with
  | [] => true
  | c :: search' =>
      match s with
      | [] => false
      | d :: s' => (d =? c) && startsWith s' search'
      end
  end.

(** The callbacks [register] hands to [Handlebars.registerHelper]. *)
Inductive helper : Type :=
| IncHelper
| IsGmHelper
| CanCreateEffectsHelper
| HasNestedEffectsHelper
| ConvenientIconsHelper.

Module HandlebarHelpers.

(** [Handlebars.registerHelper(name, fn)] on the table of helpers. *)
Definition registerHelper (name : string) (fn : helper)
    (helpers : gmap string helper) : gmap string helper :=
  <[name := fn]> helpers.

Definition registerIncHelper (helpers : gmap string helper)
  : gmap string helper :=
  registerHelper "inc" IncHelper helpers.

Definition registerIsGmHelper (helpers : gmap string helper)
  : gmap string helper :=
  registerHelper "isGm" IsGmHelper helpers.

Definition registerCanCreateEffectsHelper (helpers : gmap string helper)
  : gmap string helper :=
  registerHelper "canCreateEffects" CanCreateEffectsHelper helpers.

Definition registerHasNestedEffectsHelper (helpers : gmap string helper)
  : gmap string helper :=
  registerHelper "hasNestedEffects" HasNestedEffectsHelper helpers.

Definition registerHasBackup (helpers : gmap string helper)
  : gmap string helper :=
  helpers.

Definition registerConvenientIconsHelper (helpers : gmap string helper)
  : gmap string helper :=
  registerHelper "convenientIcons" ConvenientIconsHelper helpers.

Definition register (helpers : gmap string helper) : gmap string helper :=
  let helpers := registerIncHelper helpers in
  let helpers := registerIsGmHelper helpers in
  let helpers := registerCanCreateEffectsHelper helpers in
  let helpers := registerHasNestedEffectsHelper helpers in
  let helpers := registerHasBackup helpers in
  registerConvenientIconsHelper helpers.

Section Effects.

(** The host's documents and the constants of [constants.ts] and
    [module.json], none of which is among the sources. *)
Variable ActiveEffect : Type.
Variable NestedEffect : Type.
Variable getFlag : ActiveEffect -> string -> string -> option (list NestedEffect).
Variable MODULE_ID : string.
Variable NESTED_EFFECTS : string.
Variable EffectChangeData : Type.
Variable key : EffectChangeData -> jsstring.

(** The callback registered as [isGm], given [game.user.isGM]. *)
Definition isGm (isGM : bool) : bool := isGM.

(** The callback registered as [canCreateEffects]. *)
Definition canCreateEffects (isGM : bool) : bool := isGM.

(** The callback registered as [hasNestedEffects]. *)
Definition hasNestedEffects (effect : ActiveEffect) : bool :=
  let nestedEffects := default [] (getFlag effect MODULE_ID NESTED_EFFECTS) in
  (0 <? length nestedEffects)%nat.

Definition getStatusEffectIcon (effect : ActiveEffect) : jsstring := lit "".

(** The callback registered as [convenientIcons]. *)
Definition convenientIcons (effect : ActiveEffect) : jsstring :=
  let icons := lit "" in
  let nestedEffectNames :=
    default [] (getFlag effect MODULE_ID NESTED_EFFECTS) in
  let icons := icons ++ getStatusEffectIcon effect in
  icons.


Definition getMidiIcon (changes : list EffectChangeData) : jsstring :=
  if existsb (fun change => startsWith (key change) (lit "flags.midi-qol"))
       changes
  then lit "<i class='fas fa-dice-d20 integration-icon' title='Midi-QoL Effects'></i> "
  else lit "".

Definition getWireIcon (changes : list EffectChangeData) : jsstring :=
  if existsb (fun change => startsWith (key change) (lit "flags.wire")) changes
  then lit "<i class='fas fa-plug integration-icon' title='Wire Effects'></i> "
  else lit "".

Definition getAtlIcon (changes : list EffectChangeData) : jsstring :=
  if existsb (fun change => startsWith (key change) (lit "ATL")) changes
  then lit "<i class='fas fa-lightbulb integration-icon' title='ATL Effects'></i> "
  else lit "".

Definition getTokenMagicIcon (changes : list EffectChangeData) : jsstring :=
  if existsb (fun change => startsWith (key change) (lit "macro.tokenMagic"))
       changes
  then lit "<i class='fas fa-magic integration-icon' title='Token Magic Effects'></i> "
  else lit "".

End Effects.

End HandlebarHelpers.

(** * Properties of the primitives *)

Section Examples.

Example lit_semi : lit ";" = [SEMI].
Proof. reflexivity. Qed.

Example split_example :
  split SEMI (lit "a;;  ;b") = [lit "a"; lit ""; lit "  "; lit "b"].
Proof. reflexivity. Qed.

Example split_empty : split SEMI (lit "") = [lit ""].
Proof. reflexivity. Qed.

Example join_example :
  join (lit ";") [lit "a"; lit ""; lit "b"] = lit "a;;b".
Proof. reflexivity. Qed.

Example trim_example : trim (lit "  a b  ") = lit "a b".
Proof. reflexivity. Qed.

Example spread_Set_example :
  spread_Set [lit "a"; lit "b"; lit "a"; lit "c"; lit "b"]
  = [lit "a"; lit "b"; lit "c"].
Proof. reflexivity. Qed.

End Examples.

Section Trim.

Lemma truthy_rev (s : jsstring) : truthy (rev s) = truthy s.
Proof.
  destruct s as [|c s]; [reflexivity|].
  simpl. destruct (rev s); reflexivity.
Qed.

Lemma is_blank_rev (s : jsstring) : is_blank (rev s) = is_blank s.
Proof.
  unfold is_blank. induction s as [|c s IH]; [reflexivity|].
  simpl. rewrite forallb_app, IH. simpl.
  rewrite andb_true_r. apply andb_comm.
Qed.

Lemma truthy_trim_start (s : jsstring) :
  truthy (trim_start s) = negb (is_blank s).
Proof.
  unfold is_blank. induction s as [|c s IH]; [reflexivity|].
  simpl. destruct (is_white_space c); simpl; [exact IH | reflexivity].
Qed.

Lemma is_blank_trim_start (s : jsstring) :
  is_blank (trim_start s) = is_blank s.
Proof.
  unfold is_blank. induction s as [|c s IH]; [reflexivity|].
  simpl. destruct (is_white_space c) eqn:E; simpl; [exact IH|].
  rewrite E. reflexivity.
Qed.

(** [name.trim()] is truthy exactly when [name] has a character that is
    not white space. *)
Lemma truthy_trim (s : jsstring) : truthy (trim s) = negb (is_blank s).
Proof.
  unfold trim, trim_end.
  rewrite truthy_rev, truthy_trim_start, is_blank_rev.
  rewrite is_blank_trim_start. reflexivity.
Qed.

Lemma semi_not_white_space : is_white_space SEMI = false.
Proof. reflexivity. Qed.

Lemma is_blank_no_semi (s : jsstring) : is_blank s = true -> ~ In SEMI s.
Proof.
  unfold is_blank. intros Hb Hin.
  rewrite forallb_forall in Hb. apply Hb in Hin.
  rewrite semi_not_white_space in Hin. discriminate.
Qed.

End Trim.

Section SplitJoin.

Variable sep : code_unit.

Lemma split_not_nil (s : jsstring) : split sep s <> [].
Proof.
  destruct s as [|c s]; simpl; [discriminate|].
  destruct (c =? sep); [discriminate|].
  destruct (split sep s); discriminate.
Qed.

Lemma split_app_sep (x y : jsstring) :
  split sep (x ++ sep :: y) = split sep x ++ split sep y.
Proof.
  induction x as [|c x IH]; simpl.
  - rewrite N.eqb_refl. reflexivity.
  - destruct (c =? sep); [rewrite IH; reflexivity|].
    rewrite IH. pose proof (split_not_nil x) as Hne.
    destruct (split sep x); [congruence | reflexivity].
Qed.

Lemma split_no_sep (s : jsstring) : ~ In sep s -> split sep s = [s].
Proof.
  induction s as [|c s IH]; simpl; intros Hn; [reflexivity|].
  destruct (N.eqb_spec c sep) as [->|Hc].
  - exfalso. apply Hn. left. reflexivity.
  - rewrite IH; [reflexivity|]. intros Hin. apply Hn. right. exact Hin.
Qed.

Lemma split_pieces_no_sep (s p : jsstring) :
  In p (split sep s) -> ~ In sep p.
Proof.
  revert p. induction s as [|c s IH]; simpl; intros p Hp.
  - destruct Hp as [<-|[]]. intros [].
  - destruct (N.eqb_spec c sep) as [->|Hc].
    + destruct Hp as [<-|Hp]; [intros [] | apply IH; exact Hp].
    + destruct (split sep s) as [|q qs] eqn:E.
      * destruct Hp as [<-|[]]. intros [H|[]]. congruence.
      * destruct Hp as [<-|Hp].
        -- intros [H|H]; [congruence|]. apply (IH q); [left; reflexivity | exact H].
        -- apply IH. right. exact Hp.
Qed.

Lemma split_join (arr : list jsstring) :
  arr <> [] ->
  split sep (join [sep] arr) = concat (List.map (split sep) arr).
Proof.
  induction arr as [|x rest IH]; [congruence|]. intros _.
  destruct rest as [|y rest].
  - simpl. rewrite app_nil_r. reflexivity.
  - change (join [sep] (x :: y :: rest))
      with (x ++ sep :: join [sep] (y :: rest)).
    rewrite split_app_sep, IH by discriminate. reflexivity.
Qed.

End SplitJoin.

Section JoinSplit.

Variable sep : code_unit.

Lemma join_split (s : jsstring) : join [sep] (split sep s) = s.
Proof.
  induction s as [|c s IH]; [reflexivity|]. simpl split.
  pose proof (split_not_nil sep s) as Hne.
  destruct (N.eqb_spec c sep) as [->|Hc].
  - destruct (split sep s) as [|p ps]; [congruence|].
    change (join [sep] ([] :: p :: ps)) with (sep :: join [sep] (p :: ps)).
    rewrite IH. reflexivity.
  - destruct (split sep s) as [|p ps]; [congruence|].
    rewrite <- IH. destruct ps; reflexivity.
Qed.

Lemma join_app_join (l1 l2 : list jsstring) :
  l2 <> [] -> join [sep] (l1 ++ l2) = join [sep] (l1 ++ [join [sep] l2]).
Proof.
  intros Hne. induction l1 as [|x l1 IH]; simpl app.
  - reflexivity.
  - assert (H1 : l1 ++ l2 <> []) by (destruct l1; [exact Hne | discriminate]).
    assert (H2 : l1 ++ [join [sep] l2] <> []) by (destruct l1; discriminate).
    destruct (l1 ++ l2) as [|a r] eqn:E1; [congruence|].
    destruct (l1 ++ [join [sep] l2]) as [|b r'] eqn:E2; [congruence|].
    change (x ++ [sep] ++ join [sep] (a :: r)
            = x ++ [sep] ++ join [sep] (b :: r')).
    rewrite IH. reflexivity.
Qed.

End JoinSplit.

Section Members.

Lemma members_filter (raw : jsstring) :
  members raw = List.filter (fun n => negb (is_blank n)) (split SEMI raw).
Proof.
  unfold members, filter. apply filter_ext. intros n. apply truthy_trim.
Qed.

Lemma members_In (raw m : jsstring) :
  In m (members raw) <-> In m (split SEMI raw) /\ is_blank m = false.
Proof.
  rewrite members_filter, filter_In, negb_true_iff. reflexivity.
Qed.

Lemma members_clean (raw : jsstring) : Forall clean (members raw).
Proof.
  apply List.Forall_forall. intros m Hm. apply members_In in Hm as [Hs Hb].
  split; [eapply split_pieces_no_sep; exact Hs | exact Hb].
Qed.

Lemma members_join (arr : list jsstring) :
  members (join (lit ";") arr) = flat_map members arr.
Proof.
  destruct arr as [|x rest]; [reflexivity|].
  unfold members at 1. change (lit ";") with [SEMI].
  rewrite split_join by discriminate.
  generalize (x :: rest). intros l. induction l as [|y l IH]; [reflexivity|].
  simpl. unfold filter in *. rewrite List.filter_app, IH. reflexivity.
Qed.

Lemma members_no_semi (m : jsstring) :
  ~ In SEMI m -> members m = if is_blank m then [] else [m].
Proof.
  intros Hn. rewrite members_filter, split_no_sep by exact Hn.
  simpl. destruct (is_blank m); reflexivity.
Qed.

Lemma members_blank (m : jsstring) : is_blank m = true -> members m = [].
Proof.
  intros Hb. rewrite members_no_semi by (apply is_blank_no_semi; exact Hb).
  rewrite Hb. reflexivity.
Qed.

Lemma flat_map_members_clean (l : list jsstring) :
  Forall clean l -> flat_map members l = l.
Proof.
  induction 1 as [|m l [Hn Hb] _ IH]; [reflexivity|].
  simpl. rewrite members_no_semi, Hb, IH by exact Hn. reflexivity.
Qed.

Lemma members_join_clean (l : list jsstring) :
  Forall clean l -> members (join (lit ";") l) = l.
Proof. intros H. rewrite members_join. apply flat_map_members_clean, H. Qed.

Lemma Forall_clean_filter (f : jsstring -> bool) (l : list jsstring) :
  Forall clean l -> Forall clean (List.filter f l).
Proof.
  rewrite !List.Forall_forall. intros H m Hm. apply filter_In in Hm as [Hm _].
  apply H, Hm.
Qed.

End Members.

Section SetOfStrings.

Lemma strict_eq_true (a b : jsstring) : strict_eq a b = true <-> a = b.
Proof. unfold strict_eq. apply bool_decide_eq_true. Qed.

Lemma strict_ne_true (a b : jsstring) : strict_ne a b = true <-> a <> b.
Proof.
  unfold strict_ne. rewrite negb_true_iff, <- not_true_iff_false.
  rewrite strict_eq_true. reflexivity.
Qed.

Lemma includes_In (arr : list jsstring) (x : jsstring) :
  includes arr x = true <-> In x arr.
Proof.
  unfold includes. rewrite existsb_exists. split.
  - intros [y [Hy E]]. apply strict_eq_true in E. subst. exact Hy.
  - intros H. exists x. split; [exact H | apply strict_eq_true; reflexivity].
Qed.

Lemma includes_false (arr : list jsstring) (x : jsstring) :
  includes arr x = false <-> ~ In x arr.
Proof. rewrite <- includes_In, not_true_iff_false. reflexivity. Qed.

Lemma set_add_In (s : list jsstring) (x y : jsstring) :
  In y (set_add s x) <-> In y s \/ y = x.
Proof.
  unfold set_add. destruct (includes s x) eqn:E.
  - apply includes_In in E. split; [auto|]. intros [H| ->]; assumption.
  - rewrite in_app_iff. simpl. intuition congruence.
Qed.

Lemma set_add_NoDup (s : list jsstring) (x : jsstring) :
  List.NoDup s -> List.NoDup (set_add s x).
Proof.
  intros Hs. unfold set_add. destruct (includes s x) eqn:E; [exact Hs|].
  apply includes_false in E.
  apply NoDup_rev in Hs. rewrite <- (rev_involutive (s ++ [x])).
  apply NoDup_rev. rewrite rev_app_distr. simpl.
  constructor; [rewrite <- in_rev; exact E | exact Hs].
Qed.

Lemma fold_set_add_In (l acc : list jsstring) (y : jsstring) :
  In y (fold_left set_add l acc) <-> In y acc \/ In y l.
Proof.
  revert acc. induction l as [|x l IH]; intros acc; simpl.
  - tauto.
  - rewrite IH, set_add_In. intuition.
Qed.

Lemma fold_set_add_NoDup (l acc : list jsstring) :
  List.NoDup acc -> List.NoDup (fold_left set_add l acc).
Proof.
  revert acc. induction l as [|x l IH]; intros acc Hacc; simpl.
  - exact Hacc.
  - apply IH, set_add_NoDup, Hacc.
Qed.

Lemma fold_set_add_fresh (l acc : list jsstring) :
  List.NoDup (acc ++ l) -> fold_left set_add l acc = acc ++ l.
Proof.
  revert acc. induction l as [|x l IH]; intros acc Hnd; simpl.
  - rewrite app_nil_r. reflexivity.
  - assert (Hx : ~ In x acc).
    { intros Hin. apply NoDup_remove_2 in Hnd. apply Hnd.
      apply in_or_app. left. exact Hin. }
    unfold set_add at 2. apply includes_false in Hx. rewrite Hx.
    rewrite IH; rewrite <- app_assoc; [reflexivity | exact Hnd].
Qed.

Lemma spread_Set_In (l : list jsstring) (y : jsstring) :
  In y (spread_Set l) <-> In y l.
Proof.
  unfold spread_Set, new_Set. rewrite fold_set_add_In. simpl. tauto.
Qed.

Lemma spread_Set_NoDup (l : list jsstring) : List.NoDup (spread_Set l).
Proof. apply fold_set_add_NoDup. constructor. Qed.

Lemma spread_Set_push (l : list jsstring) (x : jsstring) :
  spread_Set (push l x) = set_add (spread_Set l) x.
Proof. unfold spread_Set, new_Set, push. apply fold_left_app. Qed.

Lemma spread_Set_id (l : list jsstring) :
  List.NoDup l -> spread_Set l = l.
Proof. intros H. apply (fold_set_add_fresh l []). exact H. Qed.

Lemma spread_Set_clean (l : list jsstring) :
  Forall clean l -> Forall clean (spread_Set l).
Proof.
  rewrite !List.Forall_forall. intros H m Hm. apply H, spread_Set_In, Hm.
Qed.

Lemma set_add_present (s : list jsstring) (x : jsstring) :
  In x s -> set_add s x = s.
Proof. intros H. unfold set_add. apply includes_In in H. rewrite H. reflexivity. Qed.

Lemma set_add_absent (s : list jsstring) (x : jsstring) :
  ~ In x s -> set_add s x = s ++ [x].
Proof. intros H. unfold set_add. apply includes_false in H. rewrite H. reflexivity. Qed.

End SetOfStrings.

(** * What [add] and [remove] do to a raw value *)

Section AddRemove.

Variables name raw : jsstring.

Lemma members_added :
  members (added name raw)
  = spread_Set (members raw)
    ++ (if includes (members raw) name then [] else members name).
Proof.
  unfold added. rewrite members_join, spread_Set_push.
  pose proof (spread_Set_clean _ (members_clean raw)) as Hc.
  destruct (includes (members raw) name) eqn:E.
  - apply includes_In, spread_Set_In in E.
    rewrite set_add_present by exact E.
    rewrite flat_map_members_clean by exact Hc.
    rewrite app_nil_r. reflexivity.
  - apply includes_false in E. rewrite <- spread_Set_In in E.
    rewrite set_add_absent by exact E.
    rewrite flat_map_app, flat_map_members_clean by exact Hc.
    simpl. rewrite app_nil_r. reflexivity.
Qed.

Lemma members_removed :
  members (removed name raw)
  = filter (fun m => strict_ne m name) (members raw).
Proof.
  unfold removed. apply members_join_clean.
  apply Forall_clean_filter, members_clean.
Qed.

Lemma name_not_in_members_removed : ~ In name (members (removed name raw)).
Proof.
  rewrite members_removed. unfold filter. rewrite filter_In.
  intros [_ H]. apply strict_ne_true in H. congruence.
Qed.

Lemma removed_absent :
  ~ In name (members raw) -> removed name raw = join (lit ";") (members raw).
Proof.
  intros Hn. unfold removed, filter. f_equal.
  apply forallb_filter_id, forallb_forall. intros m Hm.
  apply strict_ne_true. congruence.
Qed.

Lemma added_twice : ~ In SEMI name -> added name (added name raw) = added name raw.
Proof.
  intros Hsemi. unfold added at 1. rewrite members_added.
  unfold added. rewrite !spread_Set_push. f_equal.
  pose proof (spread_Set_NoDup (members raw)) as Hnd.
  destruct (includes (members raw) name) eqn:E.
  - rewrite app_nil_r, (spread_Set_id _ Hnd). reflexivity.
  - rewrite (members_no_semi _ Hsemi). destruct (is_blank name).
    + rewrite app_nil_r, (spread_Set_id _ Hnd). reflexivity.
    + change (spread_Set (members raw) ++ [name])
        with (push (spread_Set (members raw)) name).
      rewrite spread_Set_push, (spread_Set_id _ Hnd).
      apply set_add_present, set_add_In. right. reflexivity.
Qed.

End AddRemove.

Lemma added_twice_members (name raw x : jsstring) :
  In x (members (added name (added name raw)))
  <-> In x (members (added name raw)).
Proof.
  rewrite (members_added name (added name raw)).
  rewrite in_app_iff, spread_Set_In.
  destruct (includes (members (added name raw)) name) eqn:E.
  - simpl. tauto.
  - split; [|tauto]. intros [H|H]; [exact H|].
    apply includes_false in E. rewrite members_added in *.
    destruct (includes (members raw) name) eqn:E'.
    + exfalso. apply E, in_or_app. left.
      apply spread_Set_In, includes_In, E'.
    + apply in_or_app. right. exact H.
Qed.

Lemma members_not_semi (name raw : jsstring) :
  In SEMI name -> ~ In name (members raw).
Proof.
  intros Hs Hin. pose proof (members_clean raw) as Hc.
  rewrite List.Forall_forall in Hc. apply Hc in Hin as [Hn _]. tauto.
Qed.

Lemma members_not_blank (name raw : jsstring) :
  is_blank name = true -> ~ In name (members raw).
Proof.
  intros Hb Hin. pose proof (members_clean raw) as Hc.
  rewrite List.Forall_forall in Hc. apply Hc in Hin as [_ Hn]. congruence.
Qed.

(** * Running the methods on a store *)

Section Runs.

Variable g : ClientSettings.
Variable raw : jsstring.

Lemma current_value_persist (key : string) (v : value) (raw' : jsstring) :
  current_value PACKAGE_NAME key g = Some v ->
  current_value PACKAGE_NAME key (persist key raw' g) = Some (VString raw').
Proof.
  unfold current_value, persist. simpl.
  destruct (settings g !! (PACKAGE_NAME, key)); [|discriminate].
  intros _. rewrite lookup_insert_eq. reflexivity.
Qed.

Lemma set_run (key : string) (v : value) (raw' : jsstring) :
  current_value PACKAGE_NAME key g = Some v ->
  set PACKAGE_NAME key (VString raw') g = Ok tt (persist key raw' g).
Proof.
  unfold current_value, set, persist.
  destruct (settings g !! (PACKAGE_NAME, key)); [|discriminate].
  reflexivity.
Qed.

Hypothesis Hfav :
  current_value PACKAGE_NAME FAVORITE_EFFECT_NAMES g = Some (VString raw).

Lemma favoriteEffectNames_run : favoriteEffectNames g = Ok (members raw) g.
Proof. unfold favoriteEffectNames, bind, get. rewrite Hfav. reflexivity. Qed.

Lemma addFavoriteEffect_run (name : jsstring) :
  addFavoriteEffect name g
  = Ok tt (persist FAVORITE_EFFECT_NAMES (added name raw) g).
Proof.
  unfold addFavoriteEffect, bind. rewrite favoriteEffectNames_run.
  apply (set_run _ _ _ Hfav).
Qed.

Lemma removeFavoriteEffect_run (name : jsstring) :
  removeFavoriteEffect name g
  = Ok tt (persist FAVORITE_EFFECT_NAMES (removed name raw) g).
Proof.
  unfold removeFavoriteEffect, bind. rewrite favoriteEffectNames_run.
  apply (set_run _ _ _ Hfav).
Qed.

Lemma isFavoritedEffect_run (name : jsstring) :
  isFavoritedEffect name g = Ok (includes (members raw) name) g.
Proof.
  unfold isFavoritedEffect, bind. rewrite favoriteEffectNames_run.
  reflexivity.
Qed.

End Runs.

Section RunsFolders.

Variable g : ClientSettings.
Variable raw : jsstring.

Hypothesis Hexp :
  current_value PACKAGE_NAME EXPANDED_FOLDERS g = Some (VString raw).

Lemma expandedFolders_run : expandedFolders g = Ok (members raw) g.
Proof. unfold expandedFolders, bind, get. rewrite Hexp. reflexivity. Qed.

Lemma addExpandedFolder_run (name : jsstring) :
  addExpandedFolder name g
  = Ok tt (persist EXPANDED_FOLDERS (added name raw) g).
Proof.
  unfold addExpandedFolder, bind. rewrite expandedFolders_run.
  apply (set_run _ _ _ _ Hexp).
Qed.

Lemma removeExpandedFolder_run (name : jsstring) :
  removeExpandedFolder name g
  = Ok tt (persist EXPANDED_FOLDERS (removed name raw) g).
Proof.
  unfold removeExpandedFolder, bind. rewrite expandedFolders_run.
  apply (set_run _ _ _ _ Hexp).
Qed.

Lemma clearExpandedFolders_run :
  clearExpandedFolders g = Ok tt (persist EXPANDED_FOLDERS (lit "") g).
Proof. apply (set_run _ _ _ _ Hexp). Qed.

Lemma isFolderExpanded_run (name : jsstring) :
  isFolderExpanded name g = Ok (includes (members raw) name) g.
Proof.
  unfold isFolderExpanded, bind. rewrite expandedFolders_run. reflexivity.
Qed.

End RunsFolders.

Lemma persist_persist (key : string) (r1 r2 : jsstring) (g : ClientSettings) :
  persist key r2 (persist key r1 g) = persist key r2 g.
Proof.
  unfold persist. simpl. rewrite insert_insert_eq. reflexivity.
Qed.

Lemma registerSettings_fresh : registerSettings no_settings = Ok tt fresh.
Proof. vm_compute. reflexivity. Qed.

Lemma stored_favorites (raw raw' : jsstring) :
  current_value PACKAGE_NAME FAVORITE_EFFECT_NAMES (stored raw raw')
  = Some (VString raw).
Proof. reflexivity. Qed.

Lemma stored_folders (raw raw' : jsstring) :
  current_value PACKAGE_NAME EXPANDED_FOLDERS (stored raw raw')
  = Some (VString raw').
Proof. reflexivity. Qed.

(** [registerSettings] never throws, persists nothing, and registers the
    two collections with the defaults [''] and ['Favorites']. *)
Lemma registerSettings_run (g0 : ClientSettings) :
  exists s : gmap (string * string) SettingConfig,
    registerSettings g0 = Ok tt {| settings := s; storage := storage g0 |}
    /\ cfg_default <$> s !! (PACKAGE_NAME, FAVORITE_EFFECT_NAMES)
       = Some (VString (lit ""))
    /\ cfg_default <$> s !! (PACKAGE_NAME, EXPANDED_FOLDERS)
       = Some (VString (lit "Favorites")).
Proof.
  eexists. split; [reflexivity|]. cbn [settings]. split.
  - rewrite lookup_insert_ne by discriminate.
    rewrite lookup_insert_eq. reflexivity.
  - rewrite lookup_insert_eq. reflexivity.
Qed.

(** * The claims *)

(** C1: starting from an empty favorites collection (raw value ['']),
    [addFavoriteEffect("Blinded")], [addFavoriteEffect("Prone")] and
    [addFavoriteEffect("Blinded")] complete, leave the persisted raw value
    ["Blinded;Prone"], and [favoriteEffectNames] then returns
    [["Blinded", "Prone"]], in first-insertion order. *)
Theorem C1_blinded_prone_blinded (g : ClientSettings) :
  current_value PACKAGE_NAME FAVORITE_EFFECT_NAMES g = Some (VString (lit "")) ->
  exists g' : ClientSettings,
    (addFavoriteEffect (lit "Blinded") ;;
     addFavoriteEffect (lit "Prone") ;;
     addFavoriteEffect (lit "Blinded")) g = Ok tt g'
    /\ current_value PACKAGE_NAME FAVORITE_EFFECT_NAMES g'
       = Some (VString (lit "Blinded;Prone"))
    /\ favoriteEffectNames g' = Ok [lit "Blinded"; lit "Prone"] g'.
Proof.
  intros H0.
  pose proof (addFavoriteEffect_run g _ H0 (lit "Blinded")) as R1.
  pose proof (current_value_persist g _ _ (added (lit "Blinded") (lit "")) H0) as H1.
  set (g1 := persist _ _ g) in *.
  change (added (lit "Blinded") (lit "")) with (lit "Blinded") in H1.
  pose proof (addFavoriteEffect_run g1 _ H1 (lit "Prone")) as R2.
  pose proof (current_value_persist g1 _ _ (added (lit "Prone") (lit "Blinded")) H1) as H2.
  set (g2 := persist _ _ g1) in *.
  change (added (lit "Prone") (lit "Blinded")) with (lit "Blinded;Prone") in H2.
  pose proof (addFavoriteEffect_run g2 _ H2 (lit "Blinded")) as R3.
  pose proof (current_value_persist g2 _ _ (added (lit "Blinded") (lit "Blinded;Prone")) H2) as H3.
  set (g3 := persist _ _ g2) in *.
  change (added (lit "Blinded") (lit "Blinded;Prone")) with (lit "Blinded;Prone") in H3.
  exists g3. split; [|split].
  - unfold bind. rewrite R1, R2. exact R3.
  - exact H3.
  - apply (favoriteEffectNames_run g3 _ H3).
Qed.

Lemma C1_blinded_prone_blinded_witness :
  exists g' : ClientSettings,
    (addFavoriteEffect (lit "Blinded") ;;
     addFavoriteEffect (lit "Prone") ;;
     addFavoriteEffect (lit "Blinded")) fresh = Ok tt g'
    /\ current_value PACKAGE_NAME FAVORITE_EFFECT_NAMES g'
       = Some (VString (lit "Blinded;Prone"))
    /\ favoriteEffectNames g' = Ok [lit "Blinded"; lit "Prone"] g'.
Proof. apply (C1_blinded_prone_blinded fresh). reflexivity. Defined.

(** C3: [removeFavoriteEffect(name)] reads the current members, drops every
    occurrence strictly equal to [name] and writes back the remainder
    joined by [;]; and from every prior state, [addFavoriteEffect(name)]
    followed by [removeFavoriteEffect(name)] makes
    [isFavoritedEffect(name)] return [false] (for ["x"] as for any other
    name). *)
Theorem C3_remove_after_add (g : ClientSettings) (raw name : jsstring) :
  current_value PACKAGE_NAME FAVORITE_EFFECT_NAMES g = Some (VString raw) ->
  (exists (ms : list jsstring) (g' : ClientSettings),
      favoriteEffectNames g = Ok ms g
      /\ removeFavoriteEffect name g = Ok tt g'
      /\ current_value PACKAGE_NAME FAVORITE_EFFECT_NAMES g'
         = Some (VString
                   (join (lit ";")
                      (List.filter (fun m => negb (strict_eq m name)) ms))))
  /\ (exists g1 g2 : ClientSettings,
         addFavoriteEffect name g = Ok tt g1
         /\ removeFavoriteEffect name g1 = Ok tt g2
         /\ isFavoritedEffect name g2 = Ok false g2).
Proof.
  intros H0. split.
  - exists (members raw), (persist FAVORITE_EFFECT_NAMES (removed name raw) g).
    split; [apply favoriteEffectNames_run, H0|].
    split; [apply removeFavoriteEffect_run, H0|].
    apply (current_value_persist g _ _ _ H0).
  - pose proof (current_value_persist g _ _ (added name raw) H0) as H1.
    pose proof (current_value_persist _ _ _
                  (removed name (added name raw)) H1) as H2.
    eexists. eexists.
    split; [apply addFavoriteEffect_run, H0|].
    split; [apply removeFavoriteEffect_run, H1|].
    rewrite (isFavoritedEffect_run _ _ H2). f_equal.
    apply includes_false, name_not_in_members_removed.
Qed.

Lemma C3_remove_after_add_witness :
  (exists (ms : list jsstring) (g' : ClientSettings),
      favoriteEffectNames (stored (lit "x;y;x") (lit "")) = Ok ms (stored (lit "x;y;x") (lit ""))
      /\ removeFavoriteEffect (lit "x") (stored (lit "x;y;x") (lit "")) = Ok tt g'
      /\ current_value PACKAGE_NAME FAVORITE_EFFECT_NAMES g'
         = Some (VString
                   (join (lit ";")
                      (List.filter (fun m => negb (strict_eq m (lit "x"))) ms))))
  /\ (exists g1 g2 : ClientSettings,
         addFavoriteEffect (lit "x") (stored (lit "x;y;x") (lit "")) = Ok tt g1
         /\ removeFavoriteEffect (lit "x") g1 = Ok tt g2
         /\ isFavoritedEffect (lit "x") g2 = Ok false g2).
Proof.
  apply (C3_remove_after_add (stored (lit "x;y;x") (lit "")) (lit "x;y;x") (lit "x")).
  reflexivity.
Defined.

(** C5: [favoriteEffectNames] and [expandedFolders] split the persisted raw
    value on [;] and keep exactly the pieces that are neither empty nor
    made of white space only; the raw value ["a;;  ;b"] reads as the
    members ["a"] and ["b"]. *)
Theorem C5_read_splits_and_filters (g : ClientSettings) (raw raw' : jsstring) :
  current_value PACKAGE_NAME FAVORITE_EFFECT_NAMES g = Some (VString raw) ->
  current_value PACKAGE_NAME EXPANDED_FOLDERS g = Some (VString raw') ->
  favoriteEffectNames g
  = Ok (List.filter (fun piece => negb (forallb is_white_space piece))
          (split SEMI raw)) g
  /\ expandedFolders g
     = Ok (List.filter (fun piece => negb (forallb is_white_space piece))
             (split SEMI raw')) g
  /\ List.filter (fun piece => negb (forallb is_white_space piece))
       (split SEMI (lit "a;;  ;b"))
     = [lit "a"; lit "b"].
Proof.
  intros Hf He. split; [|split].
  - rewrite (favoriteEffectNames_run g raw Hf), members_filter. reflexivity.
  - rewrite (expandedFolders_run g raw' He), members_filter. reflexivity.
  - reflexivity.
Qed.

Lemma C5_read_splits_and_filters_witness :
  favoriteEffectNames (stored (lit "a;;  ;b") (lit "a;;  ;b"))
  = Ok [lit "a"; lit "b"] (stored (lit "a;;  ;b") (lit "a;;  ;b"))
  /\ expandedFolders (stored (lit "a;;  ;b") (lit "a;;  ;b"))
     = Ok [lit "a"; lit "b"] (stored (lit "a;;  ;b") (lit "a;;  ;b"))
  /\ [lit "a"; lit "b"] = [lit "a"; lit "b"].
Proof.
  apply (C5_read_splits_and_filters
           (stored (lit "a;;  ;b") (lit "a;;  ;b"))
           (lit "a;;  ;b") (lit "a;;  ;b")); reflexivity.
Defined.

(** C6: whatever the expanded folders' raw value was,
    [clearExpandedFolders()] leaves the empty string persisted and
    [expandedFolders] then returns an empty array. *)
Theorem C6_clear_expanded_folders (g : ClientSettings) (raw : jsstring) :
  current_value PACKAGE_NAME EXPANDED_FOLDERS g = Some (VString raw) ->
  exists g' : ClientSettings,
    clearExpandedFolders g = Ok tt g'
    /\ current_value PACKAGE_NAME EXPANDED_FOLDERS g' = Some (VString (lit ""))
    /\ expandedFolders g' = Ok [] g'.
Proof.
  intros He.
  pose proof (current_value_persist g _ _ (lit "") He) as H1.
  eexists. split; [apply (clearExpandedFolders_run g raw He)|].
  split; [exact H1|]. apply (expandedFolders_run _ _ H1).
Qed.

Lemma C6_clear_expanded_folders_witness :
  exists g' : ClientSettings,
    clearExpandedFolders fresh = Ok tt g'
    /\ current_value PACKAGE_NAME EXPANDED_FOLDERS g' = Some (VString (lit ""))
    /\ expandedFolders g' = Ok [] g'.
Proof.
  apply (C6_clear_expanded_folders fresh (lit "Favorites")). reflexivity.
Defined.

(** C7: once [registerSettings] has run on a host that has persisted
    nothing for the two collections, each reads its declared default:
    the favorites have raw value [''] and read as the empty array, the
    expanded folders have raw value ['Favorites'] and read as
    [["Favorites"]]. *)
Theorem C7_registered_defaults (g0 : ClientSettings) :
  storage g0 !! (PACKAGE_NAME, FAVORITE_EFFECT_NAMES) = None ->
  storage g0 !! (PACKAGE_NAME, EXPANDED_FOLDERS) = None ->
  exists g : ClientSettings,
    registerSettings g0 = Ok tt g
    /\ current_value PACKAGE_NAME FAVORITE_EFFECT_NAMES g
       = Some (VString (lit ""))
    /\ favoriteEffectNames g = Ok [] g
    /\ current_value PACKAGE_NAME EXPANDED_FOLDERS g
       = Some (VString (lit "Favorites"))
    /\ expandedFolders g = Ok [lit "Favorites"] g.
Proof.
  intros Hf He.
  destruct (registerSettings_run g0) as (s & R & Df & De).
  assert (H1 : current_value PACKAGE_NAME FAVORITE_EFFECT_NAMES
                 {| settings := s; storage := storage g0 |}
               = Some (VString (lit ""))).
  { unfold current_value. simpl. rewrite Hf.
    destruct (s !! (PACKAGE_NAME, FAVORITE_EFFECT_NAMES)); [|discriminate].
    simpl in *. congruence. }
  assert (H2 : current_value PACKAGE_NAME EXPANDED_FOLDERS
                 {| settings := s; storage := storage g0 |}
               = Some (VString (lit "Favorites"))).
  { unfold current_value. simpl. rewrite He.
    destruct (s !! (PACKAGE_NAME, EXPANDED_FOLDERS)); [|discriminate].
    simpl in *. congruence. }
  eexists. split; [exact R|].
  split; [exact H1|]. split; [apply (favoriteEffectNames_run _ _ H1)|].
  split; [exact H2|]. apply (expandedFolders_run _ _ H2).
Qed.

Lemma C7_registered_defaults_witness :
  exists g : ClientSettings,
    registerSettings no_settings = Ok tt g
    /\ current_value PACKAGE_NAME FAVORITE_EFFECT_NAMES g
       = Some (VString (lit ""))
    /\ favoriteEffectNames g = Ok [] g
    /\ current_value PACKAGE_NAME EXPANDED_FOLDERS g
       = Some (VString (lit "Favorites"))
    /\ expandedFolders g = Ok [lit "Favorites"] g.
Proof. apply (C7_registered_defaults no_settings); reflexivity. Defined.

(** C2, as the code has it: for every name and every persisted raw value,
    [addFavoriteEffect(name)] twice in a row leaves the same member set as
    calling it once, and, when the name contains no [;], the same
    persisted raw value; likewise for [addExpandedFolder]. *)
Theorem C2_add_twice (g : ClientSettings) (raw raw' name : jsstring) :
  current_value PACKAGE_NAME FAVORITE_EFFECT_NAMES g = Some (VString raw) ->
  current_value PACKAGE_NAME EXPANDED_FOLDERS g = Some (VString raw') ->
  twice_as_once FAVORITE_EFFECT_NAMES addFavoriteEffect favoriteEffectNames
    g name
  /\ twice_as_once EXPANDED_FOLDERS addExpandedFolder expandedFolders g name.
Proof.
  intros Hf He. split.
  - pose proof (current_value_persist g _ _ (added name raw) Hf) as H1.
    pose proof (current_value_persist _ _ _
                  (added name (added name raw)) H1) as H2.
    eexists. eexists. exists (members (added name raw)).
    exists (members (added name (added name raw))).
    split; [apply addFavoriteEffect_run, Hf|].
    split; [apply addFavoriteEffect_run, H1|].
    split; [apply favoriteEffectNames_run, H1|].
    split; [apply favoriteEffectNames_run, H2|].
    split; [apply added_twice_members|].
    intros Hn. rewrite persist_persist, (added_twice name raw Hn).
    split; reflexivity.
  - pose proof (current_value_persist g _ _ (added name raw') He) as H1.
    pose proof (current_value_persist _ _ _
                  (added name (added name raw')) H1) as H2.
    eexists. eexists. exists (members (added name raw')).
    exists (members (added name (added name raw'))).
    split; [apply addExpandedFolder_run, He|].
    split; [apply addExpandedFolder_run, H1|].
    split; [apply expandedFolders_run, H1|].
    split; [apply expandedFolders_run, H2|].
    split; [apply added_twice_members|].
    intros Hn. rewrite persist_persist, (added_twice name raw' Hn).
    split; reflexivity.
Qed.

Lemma C2_add_twice_witness :
  twice_as_once FAVORITE_EFFECT_NAMES addFavoriteEffect favoriteEffectNames
    (stored (lit "Prone; ;Prone") (lit "Favorites")) (lit "Blinded")
  /\ twice_as_once EXPANDED_FOLDERS addExpandedFolder expandedFolders
       (stored (lit "Prone; ;Prone") (lit "Favorites")) (lit "Blinded").
Proof.
  apply (C2_add_twice (stored (lit "Prone; ;Prone") (lit "Favorites"))
           (lit "Prone; ;Prone") (lit "Favorites") (lit "Blinded"));
    reflexivity.
Defined.

(** C2 as stated fails: on the freshly registered store,
    [addFavoriteEffect("a;b")] leaves the raw value ["a;b"], and calling it
    a second time leaves ["a;b;a;b"]. *)
Lemma C2_counterexample :
  exists g1 g2 : ClientSettings,
    addFavoriteEffect (lit "a;b") fresh = Ok tt g1
    /\ addFavoriteEffect (lit "a;b") g1 = Ok tt g2
    /\ current_value PACKAGE_NAME FAVORITE_EFFECT_NAMES g1
       = Some (VString (lit "a;b"))
    /\ current_value PACKAGE_NAME FAVORITE_EFFECT_NAMES g2
       = Some (VString (lit "a;b;a;b"))
    /\ current_value PACKAGE_NAME FAVORITE_EFFECT_NAMES g2
       <> current_value PACKAGE_NAME FAVORITE_EFFECT_NAMES g1.
Proof.
  exists (persist FAVORITE_EFFECT_NAMES (lit "a;b") fresh).
  exists (persist FAVORITE_EFFECT_NAMES (lit "a;b;a;b") fresh).
  split; [vm_compute; reflexivity|].
  split; [vm_compute; reflexivity|].
  split; [reflexivity|]. split; [reflexivity|].
  vm_compute. discriminate.
Qed.

(** C4, as the code has it: for every persisted raw value and every name
    not among the current members, [removeFavoriteEffect(name)] completes
    and leaves the members as they were; what it writes is the [;]-join of
    those members, which is the raw value it found whenever that raw value
    was such a join already; on an empty collection (raw value ['']) the
    raw value stays [''] and the collection stays empty. *)
Theorem C4_remove_absent (g : ClientSettings) (raw name : jsstring)
    (ms : list jsstring) :
  current_value PACKAGE_NAME FAVORITE_EFFECT_NAMES g = Some (VString raw) ->
  favoriteEffectNames g = Ok ms g ->
  ~ In name ms ->
  exists g' : ClientSettings,
    removeFavoriteEffect name g = Ok tt g'
    /\ favoriteEffectNames g' = Ok ms g'
    /\ current_value PACKAGE_NAME FAVORITE_EFFECT_NAMES g'
       = Some (VString (join (lit ";") ms))
    /\ (raw = join (lit ";") ms ->
        current_value PACKAGE_NAME FAVORITE_EFFECT_NAMES g'
        = current_value PACKAGE_NAME FAVORITE_EFFECT_NAMES g)
    /\ (raw = lit "" ->
        current_value PACKAGE_NAME FAVORITE_EFFECT_NAMES g'
        = Some (VString (lit ""))
        /\ ms = []).
Proof.
  intros Hf Hr Hn.
  rewrite (favoriteEffectNames_run g raw Hf) in Hr.
  injection Hr as <-.
  pose proof (current_value_persist g _ _ (removed name raw) Hf) as H1.
  exists (persist FAVORITE_EFFECT_NAMES (removed name raw) g).
  split; [apply removeFavoriteEffect_run, Hf|].
  rewrite (favoriteEffectNames_run _ _ H1), H1.
  rewrite (removed_absent name raw Hn).
  rewrite (members_join_clean _ (members_clean raw)).
  split; [reflexivity|]. split; [reflexivity|]. split.
  - intros <-. symmetry. exact Hf.
  - intros ->. split; reflexivity.
Qed.

Lemma C4_remove_absent_witness :
  exists g' : ClientSettings,
    removeFavoriteEffect (lit "x") (stored (lit "a;b") (lit "")) = Ok tt g'
    /\ favoriteEffectNames g' = Ok [lit "a"; lit "b"] g'
    /\ current_value PACKAGE_NAME FAVORITE_EFFECT_NAMES g'
       = Some (VString (join (lit ";") [lit "a"; lit "b"]))
    /\ (lit "a;b" = join (lit ";") [lit "a"; lit "b"] ->
        current_value PACKAGE_NAME FAVORITE_EFFECT_NAMES g'
        = current_value PACKAGE_NAME FAVORITE_EFFECT_NAMES
            (stored (lit "a;b") (lit "")))
    /\ (lit "a;b" = lit "" ->
        current_value PACKAGE_NAME FAVORITE_EFFECT_NAMES g'
        = Some (VString (lit ""))
        /\ [lit "a"; lit "b"] = []).
Proof.
  apply (C4_remove_absent (stored (lit "a;b") (lit "")) (lit "a;b") (lit "x")
           [lit "a"; lit "b"]).
  - reflexivity.
  - reflexivity.
  - vm_compute. intros [H|[H|[]]]; discriminate H.
Defined.

(** C4 as stated fails: after [addFavoriteEffect("a")] and
    [addFavoriteEffect("")] on the freshly registered store the raw value
    is ["a;"] and the only member is ["a"]; [removeFavoriteEffect("x")]
    then writes ["a"], not the raw value it found. *)
Lemma C4_counterexample :
  exists g g' : ClientSettings,
    (addFavoriteEffect (lit "a") ;; addFavoriteEffect (lit "")) fresh = Ok tt g
    /\ current_value PACKAGE_NAME FAVORITE_EFFECT_NAMES g
       = Some (VString (lit "a;"))
    /\ favoriteEffectNames g = Ok [lit "a"] g
    /\ ~ In (lit "x") [lit "a"]
    /\ removeFavoriteEffect (lit "x") g = Ok tt g'
    /\ current_value PACKAGE_NAME FAVORITE_EFFECT_NAMES g'
       = Some (VString (lit "a"))
    /\ current_value PACKAGE_NAME FAVORITE_EFFECT_NAMES g'
       <> current_value PACKAGE_NAME FAVORITE_EFFECT_NAMES g.
Proof.
  exists (persist FAVORITE_EFFECT_NAMES (lit "a;") fresh).
  exists (persist FAVORITE_EFFECT_NAMES (lit "a") fresh).
  split; [vm_compute; reflexivity|].
  split; [reflexivity|].
  split; [vm_compute; reflexivity|].
  split; [vm_compute; intros [H|[]]; discriminate H|].
  split; [vm_compute; reflexivity|].
  split; [reflexivity|].
  vm_compute. discriminate.
Qed.

(** C8, as the code has it: [addFavoriteEffect(name)] completes for every
    string, the empty one and those containing [;] included; a name
    containing [;] is written as it is, after the deduplicated members,
    and the next read returns, instead of the name, those of its
    [;]-separated pieces that are neither empty nor white space only
    (the other pieces are dropped by the read). *)
Theorem C8_add_without_validation (g : ClientSettings) (raw name : jsstring) :
  current_value PACKAGE_NAME FAVORITE_EFFECT_NAMES g = Some (VString raw) ->
  exists (ms0 : list jsstring) (g' : ClientSettings),
    favoriteEffectNames g = Ok ms0 g
    /\ addFavoriteEffect name g = Ok tt g'
    /\ (In SEMI name ->
        current_value PACKAGE_NAME FAVORITE_EFFECT_NAMES g'
        = Some (VString (join (lit ";") (spread_Set ms0 ++ [name])))
        /\ exists ms : list jsstring,
            favoriteEffectNames g' = Ok ms g'
            /\ ~ In name ms
            /\ ms = spread_Set ms0
                    ++ List.filter (fun piece => negb (is_blank piece))
                         (split SEMI name)
            /\ (forall piece : jsstring,
                   In piece (split SEMI name) ->
                   is_blank piece = false -> In piece ms)).
Proof.
  intros Hf.
  pose proof (current_value_persist g _ _ (added name raw) Hf) as H1.
  exists (members raw), (persist FAVORITE_EFFECT_NAMES (added name raw) g).
  split; [apply favoriteEffectNames_run, Hf|].
  split; [apply addFavoriteEffect_run, Hf|].
  intros Hs. pose proof (members_not_semi name raw Hs) as Hn.
  split.
  - rewrite H1. unfold added. rewrite spread_Set_push.
    rewrite set_add_absent; [reflexivity|].
    rewrite spread_Set_In. exact Hn.
  - exists (members (added name raw)).
    split; [apply favoriteEffectNames_run, H1|].
    split; [apply members_not_semi, Hs|].
    rewrite members_added. apply includes_false in Hn. rewrite Hn.
    rewrite (members_filter name). split; [reflexivity|].
    intros piece Hp Hb. apply in_or_app. right.
    apply filter_In. rewrite Hb. split; [exact Hp | reflexivity].
Qed.

Lemma C8_add_without_validation_witness :
  exists (ms0 : list jsstring) (g' : ClientSettings),
    favoriteEffectNames fresh = Ok ms0 fresh
    /\ addFavoriteEffect (lit "a;b") fresh = Ok tt g'
    /\ (In SEMI (lit "a;b") ->
        current_value PACKAGE_NAME FAVORITE_EFFECT_NAMES g'
        = Some (VString (join (lit ";") (spread_Set ms0 ++ [lit "a;b"])))
        /\ exists ms : list jsstring,
            favoriteEffectNames g' = Ok ms g'
            /\ ~ In (lit "a;b") ms
            /\ ms = spread_Set ms0
                    ++ List.filter (fun piece => negb (is_blank piece))
                         (split SEMI (lit "a;b"))
            /\ (forall piece : jsstring,
                   In piece (split SEMI (lit "a;b")) ->
                   is_blank piece = false -> In piece ms)).
Proof.
  apply (C8_add_without_validation fresh (lit "") (lit "a;b")). reflexivity.
Defined.

(** C8 as stated fails: [addFavoriteEffect("a;")] on the freshly registered
    store completes, and the next read returns only ["a"]: the second
    [;]-separated piece of the name, the empty string, is not a member. *)
Lemma C8_counterexample :
  exists g' : ClientSettings,
    addFavoriteEffect (lit "a;") fresh = Ok tt g'
    /\ favoriteEffectNames g' = Ok [lit "a"] g'
    /\ split SEMI (lit "a;") = [lit "a"; lit ""]
    /\ ~ In (lit "") [lit "a"].
Proof.
  exists (persist FAVORITE_EFFECT_NAMES (lit "a;") fresh).
  split; [vm_compute; reflexivity|].
  split; [vm_compute; reflexivity|].
  split; [reflexivity|].
  vm_compute. intros [H|[]]; discriminate H.
Qed.

Lemma removed_round_trip (name raw : jsstring) :
  removed name raw = join (lit ";") (members (removed name raw)).
Proof. rewrite members_removed. reflexivity. Qed.

Lemma added_round_trip (name raw : jsstring) :
  Forall (fun piece => is_blank piece = false) (split SEMI name) ->
  added name raw = join (lit ";") (members (added name raw)).
Proof.
  intros Hp. rewrite members_added. unfold added.
  rewrite spread_Set_push.
  destruct (includes (members raw) name) eqn:E.
  - rewrite app_nil_r, set_add_present; [reflexivity|].
    apply spread_Set_In, includes_In, E.
  - rewrite set_add_absent
      by (rewrite spread_Set_In; apply includes_false, E).
    rewrite (members_filter name), forallb_filter_id.
    + change (lit ";") with [SEMI].
      rewrite (join_app_join SEMI _ (split SEMI name))
        by apply split_not_nil.
      rewrite join_split. reflexivity.
    + apply forallb_forall. rewrite List.Forall_forall in Hp.
      intros piece Hin. rewrite (Hp piece Hin). reflexivity.
Qed.

(** C9, as the code has it: after [removeFavoriteEffect],
    [removeExpandedFolder] and [clearExpandedFolders], whatever the
    argument and the prior raw value, the persisted raw value is the
    [;]-join of the members a read returns; after [addFavoriteEffect(name)]
    and [addExpandedFolder(name)] it is so whenever no [;]-separated piece
    of [name] is empty or white space only (so for every name that has a
    character other than white space and no [;]). *)
Theorem C9_writes_round_trip (g : ClientSettings) (raw raw' name : jsstring) :
  current_value PACKAGE_NAME FAVORITE_EFFECT_NAMES g = Some (VString raw) ->
  current_value PACKAGE_NAME EXPANDED_FOLDERS g = Some (VString raw') ->
  (exists g' : ClientSettings,
      removeFavoriteEffect name g = Ok tt g'
      /\ round_trips FAVORITE_EFFECT_NAMES favoriteEffectNames g')
  /\ (exists g' : ClientSettings,
         removeExpandedFolder name g = Ok tt g'
         /\ round_trips EXPANDED_FOLDERS expandedFolders g')
  /\ (exists g' : ClientSettings,
         clearExpandedFolders g = Ok tt g'
         /\ round_trips EXPANDED_FOLDERS expandedFolders g')
  /\ (Forall (fun piece => is_blank piece = false) (split SEMI name) ->
      (exists g' : ClientSettings,
          addFavoriteEffect name g = Ok tt g'
          /\ round_trips FAVORITE_EFFECT_NAMES favoriteEffectNames g')
      /\ (exists g' : ClientSettings,
             addExpandedFolder name g = Ok tt g'
             /\ round_trips EXPANDED_FOLDERS expandedFolders g')).
Proof.
  intros Hf He.
  split; [|split; [|split; [|intros Hp; split]]].
  - pose proof (current_value_persist g _ _ (removed name raw) Hf) as H1.
    eexists. split; [apply removeFavoriteEffect_run, Hf|].
    exists (removed name raw), (members (removed name raw)).
    split; [exact H1|]. split; [apply favoriteEffectNames_run, H1|].
    apply removed_round_trip.
  - pose proof (current_value_persist g _ _ (removed name raw') He) as H1.
    eexists. split; [apply removeExpandedFolder_run, He|].
    exists (removed name raw'), (members (removed name raw')).
    split; [exact H1|]. split; [apply expandedFolders_run, H1|].
    apply removed_round_trip.
  - pose proof (current_value_persist g _ _ (lit "") He) as H1.
    eexists. split; [apply (clearExpandedFolders_run g raw' He)|].
    exists (lit ""), [].
    split; [exact H1|]. split; [apply (expandedFolders_run _ _ H1)|].
    reflexivity.
  - pose proof (current_value_persist g _ _ (added name raw) Hf) as H1.
    eexists. split; [apply addFavoriteEffect_run, Hf|].
    exists (added name raw), (members (added name raw)).
    split; [exact H1|]. split; [apply favoriteEffectNames_run, H1|].
    apply added_round_trip, Hp.
  - pose proof (current_value_persist g _ _ (added name raw') He) as H1.
    eexists. split; [apply addExpandedFolder_run, He|].
    exists (added name raw'), (members (added name raw')).
    split; [exact H1|]. split; [apply expandedFolders_run, H1|].
    apply added_round_trip, Hp.
Qed.

Lemma C9_writes_round_trip_witness :
  (exists g' : ClientSettings,
      removeFavoriteEffect (lit "Prone") (stored (lit "a;;b; ") (lit "Favorites;"))
      = Ok tt g'
      /\ round_trips FAVORITE_EFFECT_NAMES favoriteEffectNames g')
  /\ (exists g' : ClientSettings,
         removeExpandedFolder (lit "Prone") (stored (lit "a;;b; ") (lit "Favorites;"))
         = Ok tt g'
         /\ round_trips EXPANDED_FOLDERS expandedFolders g')
  /\ (exists g' : ClientSettings,
         clearExpandedFolders (stored (lit "a;;b; ") (lit "Favorites;")) = Ok tt g'
         /\ round_trips EXPANDED_FOLDERS expandedFolders g')
  /\ (Forall (fun piece => is_blank piece = false) (split SEMI (lit "Prone")) ->
      (exists g' : ClientSettings,
          addFavoriteEffect (lit "Prone") (stored (lit "a;;b; ") (lit "Favorites;"))
          = Ok tt g'
          /\ round_trips FAVORITE_EFFECT_NAMES favoriteEffectNames g')
      /\ (exists g' : ClientSettings,
             addExpandedFolder (lit "Prone") (stored (lit "a;;b; ") (lit "Favorites;"))
             = Ok tt g'
             /\ round_trips EXPANDED_FOLDERS expandedFolders g')).
Proof.
  apply (C9_writes_round_trip (stored (lit "a;;b; ") (lit "Favorites;"))
           (lit "a;;b; ") (lit "Favorites;") (lit "Prone")); reflexivity.
Defined.

(** C9 as stated fails: [addFavoriteEffect(" ")] on the freshly registered
    store persists the raw value [" "], while a read returns no member,
    and the [;]-join of no member is the empty string. *)
Lemma C9_counterexample :
  exists g' : ClientSettings,
    addFavoriteEffect (lit " ") fresh = Ok tt g'
    /\ current_value PACKAGE_NAME FAVORITE_EFFECT_NAMES g'
       = Some (VString (lit " "))
    /\ favoriteEffectNames g' = Ok [] g'
    /\ lit " " <> join (lit ";") []
    /\ ~ round_trips FAVORITE_EFFECT_NAMES favoriteEffectNames g'.
Proof.
  exists (persist FAVORITE_EFFECT_NAMES (lit " ") fresh).
  assert (Hr : favoriteEffectNames (persist FAVORITE_EFFECT_NAMES (lit " ") fresh)
               = Ok [] (persist FAVORITE_EFFECT_NAMES (lit " ") fresh))
    by (vm_compute; reflexivity).
  split; [vm_compute; reflexivity|].
  split; [reflexivity|].
  split; [exact Hr|].
  split; [vm_compute; discriminate|].
  intros (raw & ms & H1 & H2 & H3).
  rewrite Hr in H2. injection H2 as <-.
  change (Some (VString (lit " ")) = Some (VString raw)) in H1.
  injection H1 as <-. vm_compute in H3. discriminate H3.
Qed.

(** C10, as the code has it: for every prior state and every name made of
    white space only (the empty name included), [addFavoriteEffect(name)]
    completes, [isFavoritedEffect(name)] is then [false], and the next
    read returns the members read before the call with every repeated
    entry dropped after its first occurrence: the same sequence whenever
    the members read before held no duplicate. *)
Theorem C10_blank_name_is_lost (g : ClientSettings) (raw name : jsstring) :
  current_value PACKAGE_NAME FAVORITE_EFFECT_NAMES g = Some (VString raw) ->
  is_blank name = true ->
  exists (ms : list jsstring) (g' : ClientSettings),
    favoriteEffectNames g = Ok ms g
    /\ addFavoriteEffect name g = Ok tt g'
    /\ isFavoritedEffect name g' = Ok false g'
    /\ favoriteEffectNames g' = Ok (spread_Set ms) g'
    /\ (List.NoDup ms -> favoriteEffectNames g' = Ok ms g').
Proof.
  intros Hf Hb.
  pose proof (current_value_persist g _ _ (added name raw) Hf) as H1.
  assert (Hm : members (added name raw) = spread_Set (members raw)).
  { rewrite members_added.
    pose proof (members_not_blank name raw Hb) as Hn.
    apply includes_false in Hn. rewrite Hn.
    rewrite (members_blank name Hb), app_nil_r. reflexivity. }
  exists (members raw), (persist FAVORITE_EFFECT_NAMES (added name raw) g).
  split; [apply favoriteEffectNames_run, Hf|].
  split; [apply addFavoriteEffect_run, Hf|].
  split.
  - rewrite (isFavoritedEffect_run _ _ H1). f_equal.
    apply includes_false, members_not_blank, Hb.
  - rewrite (favoriteEffectNames_run _ _ H1), Hm.
    split; [reflexivity|]. intros Hnd.
    rewrite (spread_Set_id _ Hnd). reflexivity.
Qed.

Lemma C10_blank_name_is_lost_witness :
  exists (ms : list jsstring) (g' : ClientSettings),
    favoriteEffectNames (stored (lit "Blinded;Prone") (lit "")) 
    = Ok ms (stored (lit "Blinded;Prone") (lit ""))
    /\ addFavoriteEffect (lit "  ") (stored (lit "Blinded;Prone") (lit ""))
       = Ok tt g'
    /\ isFavoritedEffect (lit "  ") g' = Ok false g'
    /\ favoriteEffectNames g' = Ok (spread_Set ms) g'
    /\ (List.NoDup ms -> favoriteEffectNames g' = Ok ms g').
Proof.
  apply (C10_blank_name_is_lost (stored (lit "Blinded;Prone") (lit ""))
           (lit "Blinded;Prone") (lit "  ")); reflexivity.
Defined.

(** C10 as stated fails: after [addFavoriteEffect("a;a")] on the freshly
    registered store a read returns [["a", "a"]]; [addFavoriteEffect(" ")]
    then completes, and the next read returns [["a"]], another sequence. *)
Lemma C10_counterexample :
  exists g g' : ClientSettings,
    addFavoriteEffect (lit "a;a") fresh = Ok tt g
    /\ favoriteEffectNames g = Ok [lit "a"; lit "a"] g
    /\ is_blank (lit " ") = true
    /\ addFavoriteEffect (lit " ") g = Ok tt g'
    /\ favoriteEffectNames g' = Ok [lit "a"] g'
    /\ [lit "a"] <> [lit "a"; lit "a"].
Proof.
  exists (persist FAVORITE_EFFECT_NAMES (lit "a;a") fresh).
  exists (persist FAVORITE_EFFECT_NAMES (lit "a; ") fresh).
  split; [vm_compute; reflexivity|].
  split; [vm_compute; reflexivity|].
  split; [reflexivity|].
  split; [vm_compute; reflexivity|].
  split; [vm_compute; reflexivity|].
  vm_compute. discriminate.
Qed.

(** * Further properties of [Settings] *)

Section Collections.

Variable c : Collection.
Hypothesis Hc : In c collections.

Variable g : ClientSettings.
Variable raw : jsstring.
Hypothesis Hraw : holds c g raw.

Lemma collection_read : c_read c g = Ok (members raw) g.
Proof.
  destruct Hc as [<-|[<-|[]]].
  - apply favoriteEffectNames_run, Hraw.
  - apply expandedFolders_run, Hraw.
Qed.

Lemma collection_add (name : jsstring) :
  c_add c name g = Ok tt (persist (c_key c) (added name raw) g).
Proof.
  destruct Hc as [<-|[<-|[]]].
  - apply addFavoriteEffect_run, Hraw.
  - apply addExpandedFolder_run, Hraw.
Qed.

Lemma collection_remove (name : jsstring) :
  c_remove c name g = Ok tt (persist (c_key c) (removed name raw) g).
Proof.
  destruct Hc as [<-|[<-|[]]].
  - apply removeFavoriteEffect_run, Hraw.
  - apply removeExpandedFolder_run, Hraw.
Qed.

Lemma collection_contains (name : jsstring) :
  c_contains c name g = Ok (includes (members raw) name) g.
Proof.
  destruct Hc as [<-|[<-|[]]].
  - apply isFavoritedEffect_run, Hraw.
  - apply isFolderExpanded_run, Hraw.
Qed.

Lemma holds_persist (raw' : jsstring) :
  holds c (persist (c_key c) raw' g) raw'.
Proof. exact (current_value_persist g _ _ raw' Hraw). Qed.

End Collections.

Lemma current_value_persist_other (g : ClientSettings)
    (key namespace k : string) (raw : jsstring) :
  (namespace, k) <> (PACKAGE_NAME, key) ->
  current_value namespace k (persist key raw g) = current_value namespace k g.
Proof.
  intros Hne. unfold current_value, persist. simpl.
  rewrite lookup_insert_ne by congruence. reflexivity.
Qed.

Lemma only_touches_persist (key : string) (m : M unit) (g : ClientSettings)
    (raw : jsstring) :
  m g = Ok tt (persist key raw g) -> only_touches key m g.
Proof.
  intros Hm. exists (persist key raw g).
  split; [exact Hm|]. split; [reflexivity|].
  intros namespace k Hne. apply current_value_persist_other, Hne.
Qed.

Lemma filter_filter_same (f : jsstring -> bool) (l : list jsstring) :
  List.filter f (List.filter f l) = List.filter f l.
Proof.
  apply forallb_filter_id, forallb_forall.
  intros x Hx. apply filter_In in Hx as [_ Hx]. exact Hx.
Qed.

Lemma removed_twice (name raw : jsstring) :
  removed name (removed name raw) = removed name raw.
Proof.
  unfold removed at 1. rewrite members_removed.
  unfold filter. rewrite filter_filter_same. reflexivity.
Qed.

Lemma members_added_no_semi (name raw : jsstring) :
  ~ In SEMI name ->
  members (added name raw)
  = spread_Set (members raw)
    ++ (if includes (members raw) name || is_blank name then [] else [name]).
Proof.
  intros Hn. rewrite members_added, (members_no_semi name Hn).
  destruct (includes (members raw) name); [reflexivity|].
  destruct (is_blank name); reflexivity.
Qed.

Lemma members_added_clean (name raw : jsstring) :
  clean name ->
  members (added name raw) = spread_Set (push (members raw) name).
Proof.
  intros [Hn Hb]. rewrite members_added_no_semi by exact Hn.
  rewrite Hb, orb_false_r, spread_Set_push.
  destruct (includes (members raw) name) eqn:E.
  - rewrite app_nil_r, set_add_present; [reflexivity|].
    apply spread_Set_In, includes_In, E.
  - rewrite set_add_absent; [reflexivity|].
    rewrite spread_Set_In. apply includes_false, E.
Qed.

Lemma spread_Set_spread_Set_app (a l : list jsstring) :
  spread_Set (spread_Set a ++ l) = spread_Set (a ++ l).
Proof.
  unfold spread_Set, new_Set. rewrite !fold_left_app. f_equal.
  apply (spread_Set_id _ (spread_Set_NoDup a)).
Qed.

Lemma NoDup_snoc (l : list jsstring) (x : jsstring) :
  List.NoDup l -> ~ In x l -> List.NoDup (l ++ [x]).
Proof.
  intros Hl Hx. rewrite <- (set_add_absent l x Hx).
  apply set_add_NoDup, Hl.
Qed.

Lemma members_added_NoDup (name raw : jsstring) :
  ~ In SEMI name -> List.NoDup (members (added name raw)).
Proof.
  intros Hn. rewrite members_added_no_semi by exact Hn.
  pose proof (spread_Set_NoDup (members raw)) as Hd.
  destruct (includes (members raw) name) eqn:E; simpl.
  - rewrite app_nil_r. exact Hd.
  - destruct (is_blank name); [rewrite app_nil_r; exact Hd|].
    apply NoDup_snoc; [exact Hd|].
    rewrite spread_Set_In. apply includes_false, E.
Qed.

Lemma collection_read_inv (c : Collection) (g g' : ClientSettings)
    (ms : list jsstring) :
  In c collections ->
  c_read c g = Ok ms g' ->
  g' = g /\ exists raw : jsstring, holds c g raw /\ ms = members raw.
Proof.
  intros Hc Hr. unfold holds.
  destruct Hc as [<-|[<-|[]]]; simpl in *.
  - unfold favoriteEffectNames, bind, get in Hr.
    destruct (current_value PACKAGE_NAME FAVORITE_EFFECT_NAMES g)
      as [[b|s]|]; simpl in Hr; try discriminate.
    injection Hr as <- <-. split; [reflexivity|]. exists s. split; reflexivity.
  - unfold expandedFolders, bind, get in Hr.
    destruct (current_value PACKAGE_NAME EXPANDED_FOLDERS g)
      as [[b|s]|]; simpl in Hr; try discriminate.
    injection Hr as <- <-. split; [reflexivity|]. exists s. split; reflexivity.
Qed.

Lemma not_blank_has_visible (m : jsstring) :
  is_blank m = false ->
  exists ch : code_unit, In ch m /\ is_white_space ch = false.
Proof.
  unfold is_blank. induction m as [|ch m IH]; simpl; [discriminate|].
  destruct (is_white_space ch) eqn:E; simpl.
  - intros H. destruct (IH H) as (ch' & Hin & Hw).
    exists ch'. split; [right; exact Hin | exact Hw].
  - intros _. exists ch. split; [left; reflexivity | exact E].
Qed.

(** X1: Whatever raw value is persisted, no member that [favoriteEffectNames]
    or [expandedFolders] returns contains [;], and each has a character
    that is not white space (so none is empty). *)
Theorem read_members_well_formed (c : Collection) (g g' : ClientSettings)
    (ms : list jsstring) (m : jsstring) :
  In c collections ->
  c_read c g = Ok ms g' ->
  In m ms ->
  ~ In SEMI m
  /\ m <> lit ""
  /\ trim m <> lit ""
  /\ exists ch : code_unit, In ch m /\ is_white_space ch = false.
Proof.
  intros Hc Hr Hm.
  destruct (collection_read_inv c g g' ms Hc Hr) as (_ & raw & _ & ->).
  pose proof (members_clean raw) as Hcl.
  rewrite List.Forall_forall in Hcl. destruct (Hcl m Hm) as [Hs Hb].
  split; [exact Hs|]. split; [intros ->; discriminate Hb|].
  split; [|apply not_blank_has_visible, Hb].
  intros Ht. pose proof (truthy_trim m) as T.
  rewrite Ht, Hb in T. discriminate T.
Qed.

Lemma read_members_well_formed_witness :
  ~ In SEMI (lit "b c")
  /\ lit "b c" <> lit ""
  /\ trim (lit "b c") <> lit ""
  /\ exists ch : code_unit, In ch (lit "b c") /\ is_white_space ch = false.
Proof.
  apply (read_members_well_formed folders
           (stored (lit "") (lit " ;a;;b c;")) (stored (lit "") (lit " ;a;;b c;"))
           [lit "a"; lit "b c"] (lit "b c")).
  - right. left. reflexivity.
  - reflexivity.
  - right. left. reflexivity.
Defined.

(** X2: [add] and [remove] on one collection complete and change nothing but
    that collection's persisted value: the registered descriptors and every
    other setting are as before, and the other collection reads as
    before. *)
Theorem add_remove_frame (c c' : Collection) (g : ClientSettings)
    (raw name : jsstring) :
  In c collections ->
  In c' collections ->
  c_key c' <> c_key c ->
  holds c g raw ->
  only_touches (c_key c) (c_add c name) g
  /\ only_touches (c_key c) (c_remove c name) g
  /\ (forall (g' : ClientSettings) (ms : list jsstring),
         c_add c name g = Ok tt g' \/ c_remove c name g = Ok tt g' ->
         c_read c' g = Ok ms g -> c_read c' g' = Ok ms g').
Proof.
  intros Hc Hc' Hk Hraw.
  pose proof (collection_add c Hc g raw Hraw name) as Ha.
  pose proof (collection_remove c Hc g raw Hraw name) as Hr.
  split; [eapply only_touches_persist, Ha|].
  split; [eapply only_touches_persist, Hr|].
  intros g' ms Hop Hread.
  destruct (collection_read_inv c' g g ms Hc' Hread) as (_ & raw' & Hh & ->).
  assert (Hg' : exists r, g' = persist (c_key c) r g).
  { destruct Hop as [H|H]; [rewrite Ha in H | rewrite Hr in H];
      injection H as <-; eexists; reflexivity. }
  destruct Hg' as [r ->].
  apply (collection_read c' Hc'). unfold holds.
  rewrite current_value_persist_other by congruence. exact Hh.
Qed.

Lemma add_remove_frame_witness :
  only_touches (c_key favorites) (c_add favorites (lit "Prone"))
    (stored (lit "Blinded") (lit "Favorites"))
  /\ only_touches (c_key favorites) (c_remove favorites (lit "Prone"))
       (stored (lit "Blinded") (lit "Favorites"))
  /\ (forall (g' : ClientSettings) (ms : list jsstring),
         c_add favorites (lit "Prone") (stored (lit "Blinded") (lit "Favorites"))
         = Ok tt g'
         \/ c_remove favorites (lit "Prone")
              (stored (lit "Blinded") (lit "Favorites")) = Ok tt g' ->
         c_read folders (stored (lit "Blinded") (lit "Favorites"))
         = Ok ms (stored (lit "Blinded") (lit "Favorites")) ->
         c_read folders g' = Ok ms g').
Proof.
  apply (add_remove_frame favorites folders
           (stored (lit "Blinded") (lit "Favorites")) (lit "Blinded")
           (lit "Prone")).
  - left. reflexivity.
  - right. left. reflexivity.
  - discriminate.
  - reflexivity.
Defined.

(** X3: After [add(name)] the collection's members are, as a set, the members
    it had before together with the [;]-separated pieces of [name] that
    have a character other than white space: no member is lost, and a name
    without [;] that is not blank is a member afterwards. *)
Theorem add_membership (c : Collection) (g : ClientSettings)
    (raw name : jsstring) (ms : list jsstring) :
  In c collections ->
  holds c g raw ->
  c_read c g = Ok ms g ->
  exists (g' : ClientSettings) (ms' : list jsstring),
    c_add c name g = Ok tt g'
    /\ c_read c g' = Ok ms' g'
    /\ (forall x : jsstring,
           In x ms' <->
           In x ms \/ (In x (split SEMI name) /\ is_blank x = false))
    /\ (~ In SEMI name -> is_blank name = false ->
        c_contains c name g' = Ok true g').
Proof.
  intros Hc Hraw Hread.
  rewrite (collection_read c Hc g raw Hraw) in Hread. injection Hread as <-.
  pose proof (holds_persist c g raw Hraw (added name raw)) as H1.
  exists (persist (c_key c) (added name raw) g), (members (added name raw)).
  split; [apply (collection_add c Hc g raw Hraw)|].
  split; [apply (collection_read c Hc _ _ H1)|].
  assert (Hiff : forall x, In x (members (added name raw)) <->
                   In x (members raw) \/ In x (members name)).
  { intros x. rewrite members_added, in_app_iff, spread_Set_In.
    destruct (includes (members raw) name) eqn:E; [|reflexivity].
    simpl. split; [tauto|]. intros [H|H]; [left; exact H|].
    apply includes_In in E. pose proof (members_clean raw) as Hcl.
    rewrite List.Forall_forall in Hcl. destruct (Hcl name E) as [Hs Hb].
    rewrite (members_no_semi name Hs), Hb in H.
    destruct H as [<-|[]]. left. exact E. }
  split.
  - intros x. rewrite Hiff, (members_In name). reflexivity.
  - intros Hs Hb. rewrite (collection_contains c Hc _ _ H1). f_equal.
    apply includes_In, Hiff. right.
    rewrite (members_no_semi name Hs), Hb. left. reflexivity.
Qed.

Lemma add_membership_witness :
  exists (g' : ClientSettings) (ms' : list jsstring),
    c_add folders (lit "Prone; ;Deaf") (stored (lit "") (lit "Favorites")) = Ok tt g'
    /\ c_read folders g' = Ok ms' g'
    /\ (forall x : jsstring,
           In x ms' <->
           In x [lit "Favorites"]
           \/ (In x (split SEMI (lit "Prone; ;Deaf")) /\ is_blank x = false))
    /\ (~ In SEMI (lit "Prone; ;Deaf") -> is_blank (lit "Prone; ;Deaf") = false ->
        c_contains folders (lit "Prone; ;Deaf") g' = Ok true g').
Proof.
  apply (add_membership folders (stored (lit "") (lit "Favorites"))
           (lit "Favorites") (lit "Prone; ;Deaf") [lit "Favorites"]).
  - right. left. reflexivity.
  - reflexivity.
  - reflexivity.
Defined.

(** X5: Whatever the persisted raw value was, duplicates included, after
    [add(name)] with a name that contains no [;] the collection reads
    without any duplicate. *)
Theorem add_leaves_no_duplicates (c : Collection) (g : ClientSettings)
    (raw name : jsstring) :
  In c collections ->
  holds c g raw ->
  ~ In SEMI name ->
  exists (g' : ClientSettings) (ms' : list jsstring),
    c_add c name g = Ok tt g'
    /\ c_read c g' = Ok ms' g'
    /\ List.NoDup ms'.
Proof.
  intros Hc Hraw Hs.
  pose proof (holds_persist c g raw Hraw (added name raw)) as H1.
  exists (persist (c_key c) (added name raw) g), (members (added name raw)).
  split; [apply (collection_add c Hc g raw Hraw)|].
  split; [apply (collection_read c Hc _ _ H1)|].
  apply members_added_NoDup, Hs.
Qed.

Lemma add_leaves_no_duplicates_witness :
  exists (g' : ClientSettings) (ms' : list jsstring),
    c_add favorites (lit "b") (stored (lit "a;b;a;a") (lit "")) = Ok tt g'
    /\ c_read favorites g' = Ok ms' g'
    /\ List.NoDup ms'.
Proof.
  apply (add_leaves_no_duplicates favorites (stored (lit "a;b;a;a") (lit ""))
           (lit "a;b;a;a") (lit "b")).
  - left. reflexivity.
  - reflexivity.
  - vm_compute. intros [H|[]]. discriminate H.
Defined.

(** X7: After [remove(name)], for every name, the collection reads as before
    minus the entries equal to [name], the others in their order;
    [name] is no member any more; no duplicate appears that was not there;
    and a second [remove(name)] leaves the store exactly as it is. *)
Theorem remove_on_read (c : Collection) (g : ClientSettings)
    (raw name : jsstring) (ms : list jsstring) :
  In c collections ->
  holds c g raw ->
  c_read c g = Ok ms g ->
  exists g' : ClientSettings,
    c_remove c name g = Ok tt g'
    /\ c_read c g'
       = Ok (List.filter (fun m => negb (strict_eq m name)) ms) g'
    /\ c_contains c name g' = Ok false g'
    /\ (List.NoDup ms ->
        List.NoDup (List.filter (fun m => negb (strict_eq m name)) ms))
    /\ c_remove c name g' = Ok tt g'.
Proof.
  intros Hc Hraw Hread.
  rewrite (collection_read c Hc g raw Hraw) in Hread. injection Hread as <-.
  pose proof (holds_persist c g raw Hraw (removed name raw)) as H1.
  exists (persist (c_key c) (removed name raw) g).
  split; [apply (collection_remove c Hc g raw Hraw)|].
  split; [rewrite (collection_read c Hc _ _ H1); f_equal;
          apply members_removed|].
  split; [rewrite (collection_contains c Hc _ _ H1); f_equal;
          apply includes_false, name_not_in_members_removed|].
  split; [apply List.NoDup_filter|].
  rewrite (collection_remove c Hc _ _ H1), persist_persist, removed_twice.
  reflexivity.
Qed.

Lemma remove_on_read_witness :
  exists g' : ClientSettings,
    c_remove folders (lit "b") (stored (lit "") (lit "a;b;c;b")) = Ok tt g'
    /\ c_read folders g'
       = Ok (List.filter (fun m => negb (strict_eq m (lit "b")))
               [lit "a"; lit "b"; lit "c"; lit "b"]) g'
    /\ c_contains folders (lit "b") g' = Ok false g'
    /\ (List.NoDup [lit "a"; lit "b"; lit "c"; lit "b"] ->
        List.NoDup (List.filter (fun m => negb (strict_eq m (lit "b")))
                      [lit "a"; lit "b"; lit "c"; lit "b"]))
    /\ c_remove folders (lit "b") g' = Ok tt g'.
Proof.
  apply (remove_on_read folders (stored (lit "") (lit "a;b;c;b"))
           (lit "a;b;c;b") (lit "b") [lit "a"; lit "b"; lit "c"; lit "b"]).
  - right. left. reflexivity.
  - reflexivity.
  - reflexivity.
Defined.

(** X9: [contains(name)] is [true] exactly when [name] is one of the
    [;]-separated pieces of the persisted raw value and has a character
    other than white space; so it is [false] for every name that contains
    [;] and for every blank name, whatever was added before. *)
Theorem contains_characterised (c : Collection) (g g' : ClientSettings)
    (raw name : jsstring) (b : bool) :
  In c collections ->
  holds c g raw ->
  c_contains c name g = Ok b g' ->
  g' = g
  /\ (b = true <-> In name (split SEMI raw) /\ is_blank name = false)
  /\ (In SEMI name \/ is_blank name = true -> b = false).
Proof.
  intros Hc Hraw Hb.
  rewrite (collection_contains c Hc g raw Hraw) in Hb.
  injection Hb as <- <-. split; [reflexivity|]. split.
  - rewrite includes_In. apply members_In.
  - intros [Hs|Hbl]; apply includes_false.
    + apply members_not_semi, Hs.
    + apply members_not_blank, Hbl.
Qed.

Lemma contains_characterised_witness :
  stored (lit "a;b") (lit "") = stored (lit "a;b") (lit "")
  /\ (false = true <->
      In (lit "a;b") (split SEMI (lit "a;b")) /\ is_blank (lit "a;b") = false)
  /\ (In SEMI (lit "a;b") \/ is_blank (lit "a;b") = true -> false = false).
Proof.
  apply (contains_characterised favorites (stored (lit "a;b") (lit ""))
           (stored (lit "a;b") (lit "")) (lit "a;b") (lit "a;b") false).
  - left. reflexivity.
  - reflexivity.
  - reflexivity.
Defined.

(** X8: [add(name)] followed by [remove(name)]: for a name without [;] the
    collection then reads as its deduplicated former members minus [name],
    so as before when [name] was no member and nothing was duplicated;
    for a name that contains [;], [remove] does not undo [add]: the pieces
    of the name that are not blank stay members. *)
Theorem add_then_remove (c : Collection) (g : ClientSettings)
    (raw name : jsstring) (ms : list jsstring) :
  In c collections ->
  holds c g raw ->
  c_read c g = Ok ms g ->
  exists g1 g2 : ClientSettings,
    c_add c name g = Ok tt g1
    /\ c_remove c name g1 = Ok tt g2
    /\ (~ In SEMI name ->
        c_read c g2
        = Ok (List.filter (fun m => negb (strict_eq m name)) (spread_Set ms)) g2
        /\ (~ In name ms -> List.NoDup ms -> c_read c g2 = Ok ms g2))
    /\ (In SEMI name ->
        c_read c g2
        = Ok (spread_Set ms
              ++ List.filter (fun piece => negb (is_blank piece))
                   (split SEMI name)) g2).
Proof.
  intros Hc Hraw Hread.
  rewrite (collection_read c Hc g raw Hraw) in Hread. injection Hread as <-.
  pose proof (holds_persist c g raw Hraw (added name raw)) as H1.
  pose proof (holds_persist c _ _ H1 (removed name (added name raw))) as H2.
  eexists. eexists.
  split; [apply (collection_add c Hc g raw Hraw)|].
  split; [apply (collection_remove c Hc _ _ H1)|].
  rewrite (collection_read c Hc _ _ H2), members_removed.
  unfold filter, strict_ne. split.
  - intros Hs.
    assert (E : List.filter (fun m => negb (strict_eq m name))
                  (members (added name raw))
                = List.filter (fun m => negb (strict_eq m name))
                    (spread_Set (members raw))).
    { rewrite members_added_no_semi by exact Hs.
      rewrite List.filter_app.
      destruct (includes (members raw) name || is_blank name);
        simpl; [apply app_nil_r|].
      unfold strict_eq. rewrite bool_decide_eq_true_2 by reflexivity.
      simpl. apply app_nil_r. }
    rewrite E. split; [reflexivity|]. intros Hn Hd.
    rewrite (spread_Set_id _ Hd). f_equal.
    apply forallb_filter_id, forallb_forall. intros m Hm.
    apply (strict_ne_true m name). congruence.
  - intros Hs. f_equal.
    rewrite members_added.
    pose proof (members_not_semi name raw Hs) as Hn.
    apply includes_false in Hn. rewrite Hn, <- members_filter.
    apply forallb_filter_id, forallb_forall. intros m Hm.
    apply (strict_ne_true m name). intros ->.
    revert Hm. fold (members name).
    change (~ In name (spread_Set (members raw) ++ members name)).
    rewrite in_app_iff, spread_Set_In.
    intros [H|H]; eapply members_not_semi; eauto.
Qed.

Lemma add_then_remove_witness :
  exists g1 g2 : ClientSettings,
    c_add favorites (lit "a;b") (stored (lit "c") (lit "")) = Ok tt g1
    /\ c_remove favorites (lit "a;b") g1 = Ok tt g2
    /\ (~ In SEMI (lit "a;b") ->
        c_read favorites g2
        = Ok (List.filter (fun m => negb (strict_eq m (lit "a;b")))
                (spread_Set [lit "c"])) g2
        /\ (~ In (lit "a;b") [lit "c"] -> List.NoDup [lit "c"] ->
            c_read favorites g2 = Ok [lit "c"] g2))
    /\ (In SEMI (lit "a;b") ->
        c_read favorites g2
        = Ok (spread_Set [lit "c"]
              ++ List.filter (fun piece => negb (is_blank piece))
                   (split SEMI (lit "a;b"))) g2).
Proof.
  apply (add_then_remove favorites (stored (lit "c") (lit "")) (lit "c")
           (lit "a;b") [lit "c"]).
  - left. reflexivity.
  - reflexivity.
  - reflexivity.
Defined.

Lemma clean_pieces (n : jsstring) :
  clean n -> Forall (fun piece => is_blank piece = false) (split SEMI n).
Proof.
  intros [Hs Hb]. rewrite (split_no_sep SEMI n Hs).
  constructor; [exact Hb | constructor].
Qed.

Lemma members_added_all (names : list jsstring) (n raw : jsstring) :
  Forall clean (n :: names) ->
  members (fold_left (fun r x => added x r) names (added n raw))
  = spread_Set (members raw ++ n :: names).
Proof.
  revert n raw. induction names as [|n' rest IH]; intros n raw Hcl.
  - simpl. apply members_added_clean. inversion Hcl; assumption.
  - simpl. inversion Hcl as [|? ? Hn Hrest]; subst.
    rewrite (IH n' (added n raw) Hrest).
    rewrite (members_added_clean n raw Hn). unfold push.
    rewrite spread_Set_spread_Set_app, <- app_assoc. reflexivity.
Qed.

Lemma added_all_round_trip (names : list jsstring) (n raw : jsstring) :
  Forall clean (n :: names) ->
  fold_left (fun r x => added x r) names (added n raw)
  = join (lit ";")
      (members (fold_left (fun r x => added x r) names (added n raw))).
Proof.
  revert n raw. induction names as [|n' rest IH]; intros n raw Hcl.
  - simpl. apply added_round_trip, clean_pieces. inversion Hcl; assumption.
  - simpl. inversion Hcl as [|? ? Hn Hrest]; subst.
    apply (IH n' (added n raw) Hrest).
Qed.

Lemma for_each_add_run (c : Collection) (names : list jsstring) :
  In c collections ->
  forall (g : ClientSettings) (raw : jsstring),
    holds c g raw ->
    exists g' : ClientSettings,
      for_each (c_add c) names g = Ok tt g'
      /\ settings g' = settings g
      /\ holds c g' (fold_left (fun r x => added x r) names raw).
Proof.
  intros Hc. induction names as [|n rest IH]; intros g raw Hraw.
  - exists g. split; [reflexivity|]. split; [reflexivity | exact Hraw].
  - pose proof (holds_persist c g raw Hraw (added n raw)) as H1.
    destruct (IH _ _ H1) as (g' & Hrun & Hset & Hh).
    exists g'. split; [|split; [exact Hset | exact Hh]].
    simpl. unfold bind.
    rewrite (collection_add c Hc g raw Hraw n). exact Hrun.
Qed.

(** X6: Adding, one after the other, names that contain no [;] and are not
    blank: the collection then reads as its former members followed by
    the names, each kept at its first occurrence only, and the persisted
    raw value is the [;]-join of that sequence.  From a collection without
    members, names that are pairwise different read back as they were
    added, in that order. *)
Theorem add_all_round_trip (c : Collection) (g : ClientSettings)
    (raw : jsstring) (ms names : list jsstring) :
  In c collections ->
  holds c g raw ->
  c_read c g = Ok ms g ->
  names <> [] ->
  (forall n : jsstring, In n names -> ~ In SEMI n /\ is_blank n = false) ->
  exists g' : ClientSettings,
    for_each (c_add c) names g = Ok tt g'
    /\ c_read c g' = Ok (spread_Set (ms ++ names)) g'
    /\ holds c g' (join (lit ";") (spread_Set (ms ++ names)))
    /\ (ms = [] -> List.NoDup names ->
        c_read c g' = Ok names g' /\ holds c g' (join (lit ";") names)).
Proof.
  intros Hc Hraw Hread Hne Hnames.
  rewrite (collection_read c Hc g raw Hraw) in Hread. injection Hread as <-.
  destruct names as [|n rest]; [congruence|].
  assert (Hcl : Forall clean (n :: rest))
    by (apply List.Forall_forall; exact Hnames).
  destruct (for_each_add_run c (n :: rest) Hc g raw Hraw)
    as (g' & Hrun & _ & Hh).
  simpl fold_left in Hh.
  pose proof (collection_read c Hc g' _ Hh) as Hr.
  rewrite (members_added_all rest n raw Hcl) in Hr.
  rewrite (added_all_round_trip rest n raw Hcl) in Hh.
  rewrite (members_added_all rest n raw Hcl) in Hh.
  exists g'. split; [exact Hrun|]. split; [exact Hr|]. split; [exact Hh|].
  intros Hnil Hd. rewrite Hnil in Hr, Hh. simpl app in Hr, Hh.
  rewrite (spread_Set_id _ Hd) in Hr, Hh. split; assumption.
Qed.

Lemma add_all_round_trip_witness :
  exists g' : ClientSettings,
    for_each (c_add favorites) [lit "Blinded"; lit "Prone"; lit "Deafened"] fresh
    = Ok tt g'
    /\ c_read favorites g'
       = Ok (spread_Set (@nil jsstring ++ [lit "Blinded"; lit "Prone"; lit "Deafened"])) g'
    /\ holds favorites g'
         (join (lit ";")
            (spread_Set (@nil jsstring ++ [lit "Blinded"; lit "Prone"; lit "Deafened"])))
    /\ (@nil jsstring = [] -> List.NoDup [lit "Blinded"; lit "Prone"; lit "Deafened"] ->
        c_read favorites g'
        = Ok [lit "Blinded"; lit "Prone"; lit "Deafened"] g'
        /\ holds favorites g'
             (join (lit ";") [lit "Blinded"; lit "Prone"; lit "Deafened"])).
Proof.
  apply (add_all_round_trip favorites fresh (lit "") (@nil jsstring)
           [lit "Blinded"; lit "Prone"; lit "Deafened"]).
  - left. reflexivity.
  - reflexivity.
  - reflexivity.
  - discriminate.
  - intros n Hn. split.
    + intros Hs.
      destruct Hn as [<-|[<-|[<-|[]]]]; vm_compute in Hs;
        repeat (destruct Hs as [Hs|Hs]; [discriminate Hs|]); exact Hs.
    + destruct Hn as [<-|[<-|[<-|[]]]]; reflexivity.
Defined.

(** X10: [clearExpandedFolders] followed by [addExpandedFolder(name)], for a
    name without [;] that is not blank, leaves [name] as the persisted raw
    value and as the only expanded folder, whatever was expanded before,
    and touches no other setting. *)
Theorem clear_then_add (g : ClientSettings) (raw name : jsstring) :
  holds folders g raw ->
  ~ In SEMI name ->
  is_blank name = false ->
  exists g' : ClientSettings,
    (clearExpandedFolders ;; addExpandedFolder name) g = Ok tt g'
    /\ holds folders g' name
    /\ expandedFolders g' = Ok [name] g'
    /\ (forall other : jsstring,
           isFolderExpanded other g' = Ok (bool_decide (other = name)) g')
    /\ only_touches EXPANDED_FOLDERS
         (clearExpandedFolders ;; addExpandedFolder name) g.
Proof.
  intros Hraw Hs Hb. unfold holds in *. cbn [c_key folders] in *.
  pose proof (current_value_persist g _ _ (lit "") Hraw) as H0.
  pose proof (current_value_persist _ _ _ (added name (lit "")) H0) as H1.
  assert (Ea : added name (lit "") = name).
  { unfold added. change (members (lit "")) with (@nil jsstring).
    reflexivity. }
  assert (Hrun : (clearExpandedFolders ;; addExpandedFolder name) g
                 = Ok tt (persist EXPANDED_FOLDERS name g)).
  { unfold bind. rewrite (clearExpandedFolders_run g raw Hraw).
    cbn beta iota.
    rewrite (addExpandedFolder_run _ _ H0 name), persist_persist, Ea.
    reflexivity. }
  rewrite persist_persist, Ea in H1.
  assert (Em : members name = [name])
    by (rewrite (members_no_semi name Hs), Hb; reflexivity).
  exists (persist EXPANDED_FOLDERS name g).
  split; [exact Hrun|]. split; [exact H1|].
  split; [rewrite (expandedFolders_run _ _ H1), Em; reflexivity|].
  split; [|eapply only_touches_persist, Hrun].
  intros other. rewrite (isFolderExpanded_run _ _ H1 other), Em.
  unfold includes, strict_eq. simpl. rewrite orb_false_r. reflexivity.
Qed.

Lemma clear_then_add_witness :
  exists g' : ClientSettings,
    (clearExpandedFolders ;; addExpandedFolder (lit "Custom"))
      (stored (lit "") (lit "Favorites;Conditions")) = Ok tt g'
    /\ holds folders g' (lit "Custom")
    /\ expandedFolders g' = Ok [lit "Custom"] g'
    /\ (forall other : jsstring,
           isFolderExpanded other g'
           = Ok (bool_decide (other = lit "Custom")) g')
    /\ only_touches EXPANDED_FOLDERS
         (clearExpandedFolders ;; addExpandedFolder (lit "Custom"))
         (stored (lit "") (lit "Favorites;Conditions")).
Proof.
  apply (clear_then_add (stored (lit "") (lit "Favorites;Conditions"))
           (lit "Favorites;Conditions") (lit "Custom")).
  - reflexivity.
  - vm_compute. intros H.
    repeat (destruct H as [H|H]; [discriminate H|]). exact H.
  - reflexivity.
Defined.

Lemma registerSettings_again (g0 g : ClientSettings) :
  registerSettings g0 = Ok tt g -> registerSettings g = Ok tt g.
Proof.
  intros H. injection H as <-.
  unfold registerSettings, bind, register. cbn [settings storage].
  f_equal. f_equal. apply map_eq. intros i.
  rewrite !lookup_insert. repeat case_decide; reflexivity.
Qed.

(** X11: [registerSettings] completes and persists nothing: a raw value that
    was persisted for a collection before is what the collection holds and
    reads afterwards, not the default; and running [registerSettings] a
    second time changes nothing at all. *)
Theorem registerSettings_keeps_persisted (c : Collection)
    (g0 : ClientSettings) (raw : jsstring) :
  In c collections ->
  storage g0 !! (PACKAGE_NAME, c_key c) = Some (VString raw) ->
  exists g : ClientSettings,
    registerSettings g0 = Ok tt g
    /\ storage g = storage g0
    /\ holds c g raw
    /\ c_read c g = Ok (members raw) g
    /\ registerSettings g = Ok tt g.
Proof.
  intros Hc Hst.
  destruct (registerSettings_run g0) as (s & R & Df & De).
  exists {| settings := s; storage := storage g0 |}.
  assert (Hh : holds c {| settings := s; storage := storage g0 |} raw).
  { unfold holds, current_value. cbn [settings storage]. rewrite Hst.
    destruct Hc as [<-|[<-|[]]]; cbn [c_key favorites folders] in *.
    - destruct (s !! (PACKAGE_NAME, FAVORITE_EFFECT_NAMES));
        [reflexivity | discriminate].
    - destruct (s !! (PACKAGE_NAME, EXPANDED_FOLDERS));
        [reflexivity | discriminate]. }
  split; [exact R|]. split; [reflexivity|]. split; [exact Hh|].
  split; [apply (collection_read c Hc _ _ Hh)|].
  apply (registerSettings_again g0), R.
Qed.

Lemma registerSettings_keeps_persisted_witness :
  exists g : ClientSettings,
    registerSettings (stored (lit "") (lit "Conditions;Custom")) = Ok tt g
    /\ storage g = storage (stored (lit "") (lit "Conditions;Custom"))
    /\ holds folders g (lit "Conditions;Custom")
    /\ c_read folders g = Ok (members (lit "Conditions;Custom")) g
    /\ registerSettings g = Ok tt g.
Proof.
  apply (registerSettings_keeps_persisted folders
           (stored (lit "") (lit "Conditions;Custom"))
           (lit "Conditions;Custom")).
  - right. left. reflexivity.
  - reflexivity.
Defined.

(** X12: After [registerSettings] on a host that has persisted none of the four
    world settings, [allowForPlayers] is [false], [integrateWithAtl] and
    [integrateWithTokenMagic] are [true], and [chatMessageType] is
    ['private'], a value that is none of the choices registered for it. *)
Theorem registered_world_defaults (g0 : ClientSettings) :
  storage g0 !! (PACKAGE_NAME, ALLOW_FOR_PLAYERS) = None ->
  storage g0 !! (PACKAGE_NAME, CHAT_MESSAGE_TYPE) = None ->
  storage g0 !! (PACKAGE_NAME, INTEGRATE_WITH_ATL) = None ->
  storage g0 !! (PACKAGE_NAME, INTEGRATE_WITH_TOKEN_MAGIC) = None ->
  exists g : ClientSettings,
    registerSettings g0 = Ok tt g
    /\ allowForPlayers g = Ok (VBool false) g
    /\ chatMessageType g = Ok (VString (lit "private")) g
    /\ integrateWithAtl g = Ok (VBool true) g
    /\ integrateWithTokenMagic g = Ok (VBool true) g
    /\ exists cfg : SettingConfig,
        settings g !! (PACKAGE_NAME, CHAT_MESSAGE_TYPE) = Some cfg
        /\ cfg_choices cfg <> []
        /\ forall choice : string,
             In choice (List.map fst (cfg_choices cfg)) ->
             lit choice <> lit "private".
Proof.
  intros H1 H2 H3 H4. eexists. split; [reflexivity|].
  unfold allowForPlayers, chatMessageType, integrateWithAtl,
    integrateWithTokenMagic, get, current_value.
  cbn [settings storage]. rewrite H1, H2, H3, H4.
  repeat split.
  - repeat (rewrite lookup_insert_ne by discriminate).
    rewrite lookup_insert_eq. reflexivity.
  - repeat (rewrite lookup_insert_ne by discriminate).
    rewrite lookup_insert_eq. reflexivity.
  - repeat (rewrite lookup_insert_ne by discriminate).
    rewrite lookup_insert_eq. reflexivity.
  - repeat (rewrite lookup_insert_ne by discriminate).
    rewrite lookup_insert_eq. reflexivity.
  - eexists. split.
    + repeat (rewrite lookup_insert_ne by discriminate).
      rewrite lookup_insert_eq. reflexivity.
    + split; [discriminate|].
      cbn [cfg_choices List.map fst]. intros choice Hin.
      destruct Hin as [<-|[<-|[<-|[]]]]; vm_compute; discriminate.
Qed.

Lemma registered_world_defaults_witness :
  exists g : ClientSettings,
    registerSettings no_settings = Ok tt g
    /\ allowForPlayers g = Ok (VBool false) g
    /\ chatMessageType g = Ok (VString (lit "private")) g
    /\ integrateWithAtl g = Ok (VBool true) g
    /\ integrateWithTokenMagic g = Ok (VBool true) g
    /\ exists cfg : SettingConfig,
        settings g !! (PACKAGE_NAME, CHAT_MESSAGE_TYPE) = Some cfg
        /\ cfg_choices cfg <> []
        /\ forall choice : string,
             In choice (List.map fst (cfg_choices cfg)) ->
             lit choice <> lit "private".
Proof. apply (registered_world_defaults no_settings); reflexivity. Defined.

(** * Properties of the template helpers *)

Lemma startsWith_prefix (s search : jsstring) :
  startsWith s search = true <-> exists rest : jsstring, s = search ++ rest.
Proof.
  revert s. induction search as [|c search IH]; intros s; simpl.
  - split; [intros _; exists s; reflexivity | reflexivity].
  - destruct s as [|d s].
    + split; [discriminate | intros [rest H]; discriminate H].
    + rewrite andb_true_iff, N.eqb_eq, IH. split.
      * intros [-> [rest ->]]. exists rest. reflexivity.
      * intros [rest H]. injection H as -> ->.
        split; [reflexivity | exists rest; reflexivity].
Qed.




Lemma prefixes_exclusive (k p q : jsstring) :
  (forall rest : jsstring, startsWith (p ++ rest) q = false) ->
  startsWith k p = true -> startsWith k q = false.
Proof.
  intros Hpq Hp. apply startsWith_prefix in Hp as [rest ->]. apply Hpq.
Qed.

(** X15: No change shows two of the four integration icons: for a list of one
    change, at most one of [getMidiIcon], [getWireIcon], [getAtlIcon] and
    [getTokenMagicIcon] returns something else than the empty string. *)
Theorem one_change_one_icon (E : Type) (key : E -> jsstring) (change : E) :
  (length
     (List.filter (fun getIcon => truthy (getIcon [change]))
        [HandlebarHelpers.getMidiIcon E key;
         HandlebarHelpers.getWireIcon E key;
         HandlebarHelpers.getAtlIcon E key;
         HandlebarHelpers.getTokenMagicIcon E key]) <= 1)%nat.
Proof.
  unfold HandlebarHelpers.getMidiIcon, HandlebarHelpers.getWireIcon,
    HandlebarHelpers.getAtlIcon, HandlebarHelpers.getTokenMagicIcon.
  cbn [List.filter existsb]. rewrite !orb_false_r.
  destruct (startsWith (key change) (lit "flags.midi-qol")) eqn:Emidi.
  - rewrite (prefixes_exclusive _ (lit "flags.midi-qol") (lit "flags.wire")
               (fun _ => eq_refl) Emidi).
    rewrite (prefixes_exclusive _ (lit "flags.midi-qol") (lit "ATL")
               (fun _ => eq_refl) Emidi).
    rewrite (prefixes_exclusive _ (lit "flags.midi-qol")
               (lit "macro.tokenMagic") (fun _ => eq_refl) Emidi).
    simpl. lia.
  - destruct (startsWith (key change) (lit "flags.wire")) eqn:Ewire.
    + rewrite (prefixes_exclusive _ (lit "flags.wire") (lit "ATL")
                 (fun _ => eq_refl) Ewire).
      rewrite (prefixes_exclusive _ (lit "flags.wire")
                 (lit "macro.tokenMagic") (fun _ => eq_refl) Ewire).
      simpl. lia.
    + destruct (startsWith (key change) (lit "ATL")) eqn:Eatl.
      * rewrite (prefixes_exclusive _ (lit "ATL") (lit "macro.tokenMagic")
                   (fun _ => eq_refl) Eatl).
        simpl. lia.
      * destruct (startsWith (key change) (lit "macro.tokenMagic"));
          simpl; lia.
Qed.

(** X13: [register] on any table of helpers adds exactly the five helpers
    [inc], [isGm], [canCreateEffects], [hasNestedEffects] and
    [convenientIcons], replacing what was registered under these names,
    and leaves every other name, [hasBackup] among them, as it was;
    registering twice is the same as registering once. *)
Theorem register_adds_five_helpers (helpers : gmap string helper)
    (name : string) :
  ~ In name ["inc"; "isGm"; "canCreateEffects"; "hasNestedEffects";
             "convenientIcons"] ->
  HandlebarHelpers.register helpers !! name = helpers !! name
  /\ HandlebarHelpers.register helpers !! "hasBackup" = helpers !! "hasBackup"
  /\ HandlebarHelpers.register helpers !! "inc" = Some IncHelper
  /\ HandlebarHelpers.register helpers !! "isGm" = Some IsGmHelper
  /\ HandlebarHelpers.register helpers !! "canCreateEffects"
     = Some CanCreateEffectsHelper
  /\ HandlebarHelpers.register helpers !! "hasNestedEffects"
     = Some HasNestedEffectsHelper
  /\ HandlebarHelpers.register helpers !! "convenientIcons"
     = Some ConvenientIconsHelper
  /\ HandlebarHelpers.register (HandlebarHelpers.register helpers)
     = HandlebarHelpers.register helpers.
Proof.
  intros Hn.
  unfold HandlebarHelpers.register, HandlebarHelpers.registerIncHelper,
    HandlebarHelpers.registerIsGmHelper,
    HandlebarHelpers.registerCanCreateEffectsHelper,
    HandlebarHelpers.registerHasNestedEffectsHelper,
    HandlebarHelpers.registerHasBackup,
    HandlebarHelpers.registerConvenientIconsHelper,
    HandlebarHelpers.registerHelper.
  cbv zeta.
  split.
  { rewrite !lookup_insert.
    repeat case_decide; try reflexivity; exfalso; apply Hn; subst name;
      simpl; tauto. }
  split; [repeat (rewrite lookup_insert_ne by discriminate); reflexivity|].
  split; [repeat (rewrite lookup_insert_ne by discriminate);
          apply lookup_insert_eq|].
  split; [repeat (rewrite lookup_insert_ne by discriminate);
          apply lookup_insert_eq|].
  split; [repeat (rewrite lookup_insert_ne by discriminate);
          apply lookup_insert_eq|].
  split; [repeat (rewrite lookup_insert_ne by discriminate);
          apply lookup_insert_eq|].
  split; [apply lookup_insert_eq|].
  apply map_eq. intros i. rewrite !lookup_insert.
  repeat case_decide; reflexivity.
Qed.

Lemma register_adds_five_helpers_witness :
  HandlebarHelpers.register {["each" := IsGmHelper]} !! "each"
  = ({["each" := IsGmHelper]} : gmap string helper) !! "each"
  /\ HandlebarHelpers.register {["each" := IsGmHelper]} !! "hasBackup"
     = ({["each" := IsGmHelper]} : gmap string helper) !! "hasBackup"
  /\ HandlebarHelpers.register {["each" := IsGmHelper]} !! "inc"
     = Some IncHelper
  /\ HandlebarHelpers.register {["each" := IsGmHelper]} !! "isGm"
     = Some IsGmHelper
  /\ HandlebarHelpers.register {["each" := IsGmHelper]} !! "canCreateEffects"
     = Some CanCreateEffectsHelper
  /\ HandlebarHelpers.register {["each" := IsGmHelper]} !! "hasNestedEffects"
     = Some HasNestedEffectsHelper
  /\ HandlebarHelpers.register {["each" := IsGmHelper]} !! "convenientIcons"
     = Some ConvenientIconsHelper
  /\ HandlebarHelpers.register
       (HandlebarHelpers.register {["each" := IsGmHelper]})
     = HandlebarHelpers.register {["each" := IsGmHelper]}.
Proof.
  apply (register_adds_five_helpers {["each" := IsGmHelper]} "each").
  simpl. intros H.
  repeat (destruct H as [H|H]; [discriminate H|]). exact H.
Defined.

(** X16: [hasNestedEffects] is [true] exactly for an effect whose nested-effects
    flag is set to a non-empty list, and [false] when the flag is missing;
    [convenientIcons] returns the empty string for every effect, with or
    without nested effects. *)
Theorem nested_effects_and_icons (ActiveEffect NestedEffect : Type)
    (getFlag : ActiveEffect -> string -> string -> option (list NestedEffect))
    (MODULE_ID NESTED_EFFECTS : string) (effect : ActiveEffect) :
  (HandlebarHelpers.hasNestedEffects ActiveEffect NestedEffect getFlag
     MODULE_ID NESTED_EFFECTS effect = true <->
   exists (first : NestedEffect) (others : list NestedEffect),
     getFlag effect MODULE_ID NESTED_EFFECTS = Some (first :: others))
  /\ (getFlag effect MODULE_ID NESTED_EFFECTS = None ->
      HandlebarHelpers.hasNestedEffects ActiveEffect NestedEffect getFlag
        MODULE_ID NESTED_EFFECTS effect = false)
  /\ HandlebarHelpers.convenientIcons ActiveEffect NestedEffect getFlag
       MODULE_ID NESTED_EFFECTS effect = lit "".
Proof.
  unfold HandlebarHelpers.hasNestedEffects, HandlebarHelpers.convenientIcons.
  cbv zeta. split; [|split].
  - destruct (getFlag effect MODULE_ID NESTED_EFFECTS) as [[|n l]|]; simpl.
    + split; [discriminate | intros (f & o & H); discriminate H].
    + split; [intros _; exists n, l; reflexivity | reflexivity].
    + split; [discriminate | intros (f & o & H); discriminate H].
  - intros ->. reflexivity.
  - reflexivity.
Qed.

(** * Where [add] puts a name *)

(** X4: On a collection that reads without duplicates, [add(name)] for a name
    without [;] that is not blank appends [name] at the end when it was no
    member, and changes neither the members nor their order when it was
    one; the raw value persisted is the [;]-join of the resulting
    members. *)
Theorem add_appends_or_keeps (c : Collection) (g : ClientSettings)
    (raw name : jsstring) (ms : list jsstring) :
  In c collections ->
  holds c g raw ->
  c_read c g = Ok ms g ->
  List.NoDup ms ->
  ~ In SEMI name ->
  is_blank name = false ->
  exists g' : ClientSettings,
    c_add c name g = Ok tt g'
    /\ c_read c g' = Ok (if includes ms name then ms else ms ++ [name]) g'
    /\ holds c g'
         (join (lit ";") (if includes ms name then ms else ms ++ [name])).
Proof.
  intros Hc Hraw Hread Hd Hs Hb.
  rewrite (collection_read c Hc g raw Hraw) in Hread. injection Hread as <-.
  pose proof (holds_persist c g raw Hraw (added name raw)) as H1.
  assert (Em : members (added name raw)
               = if includes (members raw) name then members raw
                 else members raw ++ [name]).
  { rewrite (members_added_no_semi name raw Hs), Hb, orb_false_r.
    rewrite (spread_Set_id _ Hd).
    destruct (includes (members raw) name);
      [apply app_nil_r | reflexivity]. }
  exists (persist (c_key c) (added name raw) g).
  split; [apply (collection_add c Hc g raw Hraw)|].
  split; [rewrite (collection_read c Hc _ _ H1), Em; reflexivity|].
  rewrite <- Em, <- added_round_trip; [exact H1|].
  apply clean_pieces. split; assumption.
Qed.

Lemma add_appends_or_keeps_witness :
  exists g' : ClientSettings,
    c_add favorites (lit "b") (stored (lit "a;b;c") (lit "")) = Ok tt g'
    /\ c_read favorites g'
       = Ok (if includes [lit "a"; lit "b"; lit "c"] (lit "b")
             then [lit "a"; lit "b"; lit "c"]
             else [lit "a"; lit "b"; lit "c"] ++ [lit "b"]) g'
    /\ holds favorites g'
         (join (lit ";")
            (if includes [lit "a"; lit "b"; lit "c"] (lit "b")
             then [lit "a"; lit "b"; lit "c"]
             else [lit "a"; lit "b"; lit "c"] ++ [lit "b"])).
Proof.
  apply (add_appends_or_keeps favorites (stored (lit "a;b;c") (lit ""))
           (lit "a;b;c") (lit "b") [lit "a"; lit "b"; lit "c"]).
  - left. reflexivity.
  - reflexivity.
  - reflexivity.
  - repeat constructor; vm_compute; intros H;
      repeat (destruct H as [H|H]; [discriminate H|]); exact H.
  - vm_compute. intros [H|[]]. discriminate H.
  - reflexivity.
Defined.
